(** * Dashboard host list controller

    A shallow embedding of
    [awx/ui/client/src/dashboard/hosts/dashboard-hosts-list.controller.js].

    The controller keeps its view state on an Angular scope object, mutates
    the host objects of the displayed page in place, and talks to its
    collaborators (router, host service, list generator, search and
    pagination helpers) by calling them.  The embedding has

    - a scope record whose fields are the scope's properties, each one
      optional, because a JavaScript property may be absent and [delete]
      removes it;
    - a heap of host objects addressed by references, because the array
      [$scope.hosts] holds references and every handler mutates the objects
      it reaches through them;
    - a log of the calls made to collaborators; the scope of the model
      holds what the controller itself assigns, and what a collaborator
      does with the scope it is handed is not part of it.  The status
      resolver is the one collaborator that is not in the log: its calls
      are modelled by what they do to the host they are given;
    - the registration flag of the [$stateChangeSuccess] listener;
    - an outcome type for handlers that can raise a [TypeError].

    The second controller of the repository, the add form of inventory
    scripts, is embedded in [InventoryScriptsAdd] in the same way. *)

From Stdlib Require Import ZArith.
From stdpp Require Import base option list gmap strings pretty.

Local Open Scope string_scope.
Local Open Scope list_scope.

(** ** Data model *)

(** Object references.  A reference that is not in the heap denotes no
    JavaScript value at all (JavaScript has no dangling references): the
    heaps of interest contain every reference held by [$scope.hosts]. *)
Abbreviation loc := positive.

(** The job status display data that the status resolver attaches. *)
Abbreviation StatusMeta := (list (string * string)).

Record Inventory := mkInventory {
  inv_id : Z;
  inv_name : string
}.

Record SummaryFields := mkSummaryFields {
  inventory : Inventory
}.

Module Host.

(** A host object of the page.  A host record of the API always carries
    [summary_fields.inventory]; [inventory_name], [inventory_id] and
    [job_status] are absent on a record as the API returns it; [rest]
    stands for the remaining properties of the record. *)
Record t := mk {
  id : Z;
  name : string;
  enabled : bool;
  summary_fields : SummaryFields;
  inventory_name : option string;
  inventory_id : option Z;
  job_status : option StatusMeta;
  rest : list (string * string)
}.

Definition set_enabled (v : bool) (h : t) : t :=
  mk (id h) (name h) v (summary_fields h)
     (inventory_name h) (inventory_id h) (job_status h) (rest h).

Definition set_inventory_name (v : option string) (h : t) : t :=
  mk (id h) (name h) (enabled h) (summary_fields h)
     v (inventory_id h) (job_status h) (rest h).

Definition set_inventory_id (v : option Z) (h : t) : t :=
  mk (id h) (name h) (enabled h) (summary_fields h)
     (inventory_name h) v (job_status h) (rest h).

Definition set_job_status (v : option StatusMeta) (h : t) : t :=
  mk (id h) (name h) (enabled h) (summary_fields h)
     (inventory_name h) (inventory_id h) v (rest h).

End Host.

(** The list definition injected as [DashboardHostsList]. *)
Record ListDescriptor := mkList {
  list_name : string;
  iterator : string
}.

(** The pre-fetched first page injected as [hosts]. *)
Record Page := mkPage {
  results : list loc;
  count : Z;
  next : option string;
  previous : option string
}.

(** [toState] and [toParams] of a [$stateChangeSuccess] event.  The edit
    state's URL carries the row id, so the parameter is always there. *)
Record ToState := mkToState { to_name : string }.
Record ToParams := mkToParams { to_id : Z }.

(** What [init] reads from [$state]: [$state.current.name] and
    [$state.params.id]. *)
Record RouterState := mkRouter {
  current_name : string;
  params_id : Z
}.

(** [res] of the host service's promise: [res.data.id], [res.data.enabled]. *)
Record HostData := mkHostData { data_id : Z; data_enabled : bool }.
Record Response := mkResponse { data : HostData }.

(** The properties the controller keeps on [$scope]; [None] is an absent
    property.  [list_] is the property [list]. *)
Record Scope := mkScope {
  hostPageSize : option Z;
  list_ : option ListDescriptor;
  host_active_search : option bool;
  host_total_rows : option Z;
  hosts : option (list loc);
  hostLoading : option bool;
  rowBeingEdited : option Z;
  listBeingEdited : option string
}.

Definition empty_scope : Scope :=
  mkScope None None None None None None None None.

Definition set_hostPageSize (v : option Z) (sc : Scope) : Scope :=
  mkScope v (list_ sc) (host_active_search sc) (host_total_rows sc)
          (hosts sc) (hostLoading sc) (rowBeingEdited sc) (listBeingEdited sc).

Definition set_list_ (v : option ListDescriptor) (sc : Scope) : Scope :=
  mkScope (hostPageSize sc) v (host_active_search sc) (host_total_rows sc)
          (hosts sc) (hostLoading sc) (rowBeingEdited sc) (listBeingEdited sc).

Definition set_host_active_search (v : option bool) (sc : Scope) : Scope :=
  mkScope (hostPageSize sc) (list_ sc) v (host_total_rows sc)
          (hosts sc) (hostLoading sc) (rowBeingEdited sc) (listBeingEdited sc).

Definition set_host_total_rows (v : option Z) (sc : Scope) : Scope :=
  mkScope (hostPageSize sc) (list_ sc) (host_active_search sc) v
          (hosts sc) (hostLoading sc) (rowBeingEdited sc) (listBeingEdited sc).

Definition set_hosts (v : option (list loc)) (sc : Scope) : Scope :=
  mkScope (hostPageSize sc) (list_ sc) (host_active_search sc)
          (host_total_rows sc) v (hostLoading sc) (rowBeingEdited sc)
          (listBeingEdited sc).

Definition set_hostLoading (v : option bool) (sc : Scope) : Scope :=
  mkScope (hostPageSize sc) (list_ sc) (host_active_search sc)
          (host_total_rows sc) (hosts sc) v (rowBeingEdited sc)
          (listBeingEdited sc).

Definition set_rowBeingEdited (v : option Z) (sc : Scope) : Scope :=
  mkScope (hostPageSize sc) (list_ sc) (host_active_search sc)
          (host_total_rows sc) (hosts sc) (hostLoading sc) v
          (listBeingEdited sc).

Definition set_listBeingEdited (v : option string) (sc : Scope) : Scope :=
  mkScope (hostPageSize sc) (list_ sc) (host_active_search sc)
          (host_total_rows sc) (hosts sc) (hostLoading sc)
          (rowBeingEdited sc) v.

(** Calls the controller makes to its collaborators, the status resolver
    apart: [SetStatus] below models a call of it by its effect on the
    host. *)
Inductive Call :=
| StateGo (to : string) (id : Z)
| SetHostStatus (host : loc) (enabled : bool)
| GeneratorInject (l : ListDescriptor) (mode : string)
| SearchInit (set : string) (l : ListDescriptor) (url : string)
| PaginateInit (l : ListDescriptor) (url : string) (pageSize : Z)
| PageRangeSetup (count : Z) (next previous : option string) (iter : string)
| ScopeSearch (iter : string).

Record State := mkState {
  scope : Scope;
  heap : gmap loc Host.t;
  (** whether the [$stateChangeSuccess] listener is registered on
      [$rootScope] *)
  stateChangeListener : bool;
  (** calls made so far, oldest first *)
  calls : list Call
}.

Definition with_scope (f : Scope -> Scope) (st : State) : State :=
  mkState (f (scope st)) (heap st) (stateChangeListener st) (calls st).

Definition with_heap (f : gmap loc Host.t -> gmap loc Host.t) (st : State)
  : State :=
  mkState (scope st) (f (heap st)) (stateChangeListener st) (calls st).

Definition emit (c : Call) (st : State) : State :=
  mkState (scope st) (heap st) (stateChangeListener st) (calls st ++ [c]).

Inductive JsError := TypeError.

Inductive Outcome :=
| Normal (st : State)
| Throw (e : JsError) (st : State).

(** The state the event loop goes on with. *)
Definition after (o : Outcome) : State :=
  match o with Normal st => st | Throw _ st => st end.

(** The edit marker as the specification names it.  [PartiallySet] is the
    ill-formed case of one property present and the other absent. *)
Inductive EditTracking :=
| NoneEditing
| Editing (listName : string) (rowId : Z)
| PartiallySet.

Definition editTracking (sc : Scope) : EditTracking :=
  match listBeingEdited sc, rowBeingEdited sc with
  | Some l, Some r => Editing l r
  | None, None => NoneEditing
  | _, _ => PartiallySet
  end.

(** ** lodash *)

(** lodash iterates an [undefined] collection as an empty one. *)
Definition collection {A} (c : option (list A)) : list A := default [] c.

Fixpoint findIndex_from {A} (p : A -> bool) (xs : list A) (i : Z) : Z :=
  match xs with
  | [] => (-1)%Z
  | x :: xs' => if p x then i else findIndex_from p xs' (i + 1)%Z
  end.

(** [_.findIndex]: the index of the first element satisfying [p], else -1. *)
Definition findIndex {A} (c : option (list A)) (p : A -> bool) : Z :=
  findIndex_from p (collection c) 0%Z.

(** [_.map] with a callback that may mutate the heap. *)
Fixpoint map_list {A B S} (f : A -> S -> B * S) (xs : list A) (s : S)
  : list B * S :=
  match xs with
  | [] => ([], s)
  | x :: xs' =>
      let '(y, s1) := f x s in
      let '(ys, s2) := map_list f xs' s1 in
      (y :: ys, s2)
  end.

Definition lodash_map {A B S} (c : option (list A)) (f : A -> S -> B * S)
  (s : S) : list B * S :=
  map_list f (collection c) s.

(** [_.forEach] with a callback that may mutate the heap. *)
Fixpoint forEach_list {A S} (f : A -> S -> S) (xs : list A) (s : S) : S :=
  match xs with
  | [] => s
  | x :: xs' => forEach_list f xs' (f x s)
  end.

Definition forEach {A S} (c : option (list A)) (f : A -> S -> S) (s : S) : S :=
  forEach_list f (collection c) s.

(** [a[i]] on an array: [undefined] outside [0 .. length-1], and so for the
    index -1 that [findIndex] returns. *)
Definition array_get {A} (a : list A) (i : Z) : option A :=
  if (i <? 0)%Z then None else a !! Z.to_nat i.

(** ** The add form of inventory scripts

    [awx/ui/client/src/inventory-scripts/add/add.controller.js]: the
    controller builds the form, and its two functions post the form fields
    and leave the form.  Its state is the scope and the log of its calls to
    the collaborators. *)

Module InventoryScriptsAdd.

(** The form definition injected as [inventoryScriptsFormObject]. *)
Record FormObject := mkForm { form_name : string }.

(** The injected values the controller uses. *)
Record Injected := mkInjected {
  GetBasePath : string -> string;
  inventoryScriptsFormObject : FormObject;
  OrganizationList : ListDescriptor
}.

(** The properties of [$scope] that the controller writes or reads;
    [None] is an absent property.  The form fields are bound by the
    generated form. *)
Record Scope := mkScope {
  canEdit : option bool;
  name : option string;
  description : option string;
  organization : option Z;
  script : option string
}.

Definition set_canEdit (v : option bool) (sc : Scope) : Scope :=
  mkScope v (name sc) (description sc) (organization sc) (script sc).

(** The object given to [Rest.post]. *)
Record Payload := mkPayload {
  p_name : option string;
  p_description : option string;
  p_organization : option Z;
  p_script : option string
}.

Inductive Call :=
| GeneratorInject (form : FormObject) (mode : string) (related : bool)
| GeneratorReset
| LookUpInit (url : string) (form : FormObject) (l : ListDescriptor)
    (field input_type : string)
| GeneratorClearApiErrors
| Wait (what : string)
| RestSetUrl (url : string)
| RestPost (payload : Payload)
| StateGo (to : string) (inventory_script_id : Z) (reload : bool)
| ProcessErrors (data : string) (status : Z) (form : FormObject)
    (hdr msg : string)
| StateTransitionTo (to : string).

Record State := mkState {
  scope : Scope;
  (** calls made so far, oldest first *)
  calls : list Call
}.

Definition emit (cs : list Call) (st : State) : State :=
  mkState (scope st) (calls st ++ cs).

Definition url (inj : Injected) : string :=
  GetBasePath inj "inventory_scripts".

(** The controller function, on the scope it is handed. *)
Definition controller (inj : Injected) (sc : Scope) : State :=
  mkState (set_canEdit (Some true) sc)
    [GeneratorInject (inventoryScriptsFormObject inj) "add" false;
     GeneratorReset;
     LookUpInit (GetBasePath inj "organization")
       (inventoryScriptsFormObject inj) (OrganizationList inj)
       "organization" "radio"].

(** [scope.formSave], up to the request. *)
Definition formSave (inj : Injected) (st : State) : State :=
  emit [GeneratorClearApiErrors;
        Wait "start";
        RestSetUrl (url inj);
        RestPost (mkPayload (name (scope st)) (description (scope st))
                            (organization (scope st)) (script (scope st)))]
       st.

(** The [.success] callback of the request; [id] is [data.id]. *)
Definition formSave_success (id : Z) (st : State) : State :=
  emit [StateGo "inventoryScripts.edit" id true; Wait "stop"] st.

(** The [.error] callback of the request.  The status is an integer, which
    [+] appends to the message in decimal. *)
Definition formSave_error (inj : Injected) (data : string) (status : Z)
  (st : State) : State :=
  emit [ProcessErrors data status (inventoryScriptsFormObject inj) "Error!"
          ("Failed to add new inventory script. POST returned status: "
           +:+ pretty status)]
       st.

(** [scope.formCancel] *)
Definition formCancel (st : State) : State :=
  emit [StateTransitionTo "inventoryScripts"] st.

(** What can happen to a constructed controller: the view calls
    [formSave] or [formCancel], a request succeeds or fails. *)
Inductive Event :=
| FormSave
| PostSuccess (id : Z)
| PostError (data : string) (status : Z)
| FormCancel.

Definition dispatch (inj : Injected) (e : Event) (st : State) : State :=
  match e with
  | FormSave => formSave inj st
  | PostSuccess id => formSave_success id st
  | PostError data status => formSave_error inj data status st
  | FormCancel => formCancel st
  end.

Definition run (inj : Injected) (es : list Event) (st : State) : State :=
  foldl (fun s e => dispatch inj e s) st es.

(** The navigation that an event asks of the router, if any. *)
Definition navigation_of (e : Event) : option Call :=
  match e with
  | PostSuccess id => Some (StateGo "inventoryScripts.edit" id true)
  | FormCancel => Some (StateTransitionTo "inventoryScripts")
  | _ => None
  end.

Definition is_navigation (c : Call) : bool :=
  match c with StateGo _ _ _ | StateTransitionTo _ => true | _ => false end.

Definition is_wait (what : string) (c : Call) : bool :=
  match c with Wait w => String.eqb w what | _ => false end.

Definition is_save (e : Event) : bool :=
  match e with FormSave => true | _ => false end.

Definition is_success (e : Event) : bool :=
  match e with PostSuccess _ => true | _ => false end.

(** The form fields of a scope, as [formSave] posts them. *)
Definition form_payload (sc : Scope) : Payload :=
  mkPayload (name sc) (description sc) (organization sc) (script sc).

(** Every [Rest.post] of the log carries [payload] and comes right after
    [Rest.setUrl(url)]. *)
Definition posts_ok (url : string) (payload : Payload) (log : list Call)
  : Prop :=
  forall (i : nat) (p : Payload),
    log !! i = Some (RestPost p) ->
    p = payload
    /\ exists j : nat, i = S j /\ log !! j = Some (RestSetUrl url).

(** An example: a filled form. *)
Definition example_injected : Injected :=
  mkInjected (fun s => "/api/v1/" +:+ s +:+ "/")
             (mkForm "inventory_script") (mkList "organizations" "organization").

Definition filled_form : Scope :=
  mkScope None (Some "ec2") (Some "inventory of the cloud") (Some 1%Z)
          (Some "#!/usr/bin/env python").

End InventoryScriptsAdd.

(** ** Example data

    The page of the specification's scenario, with a second host. *)

Definition prod : Inventory := mkInventory 9 "Prod".

Definition web1 : Host.t :=
  Host.mk 1 "web1" true (mkSummaryFields prod) None None None [].

Definition web2 : Host.t :=
  Host.mk 2 "web2" false (mkSummaryFields prod) None None None [].

Definition two_hosts : gmap loc Host.t :=
  <[2%positive := web2]> {[1%positive := web1]}.

Definition first_page : Page :=
  mkPage [1%positive; 2%positive] 25 (Some "/api/v1/hosts/?page=2") None.

(** A heap in which two objects carry the same identifier. *)
Definition twins : gmap loc Host.t :=
  <[2%positive := web1]> {[1%positive := web1]}.

Definition hostsList : ListDescriptor := mkList "hosts" "host".

Definition basePath (s : string) : string :=
  ("/api/v1/" ++ s ++ "/")%string.

Definition noJobs (sc : Scope) (h : Host.t) : StatusMeta :=
  [("job_status_title", "No job data available")].

Definition at_dashboard : RouterState := mkRouter "dashboardHosts" 0.

(** ** The controller *)

Section Controller.

(** Injected values: [GetBasePath], the list definition
    [DashboardHostsList], and the display data that the status resolver
    computes for a host (its code is not part of this controller). *)
Variable GetBasePath : string -> string.
Variable DashboardHostsList : ListDescriptor.
Variable resolveStatus : Scope -> Host.t -> StatusMeta.

(** Modelled from the spec: the injected [SetStatus] (StatusResolver.apply),
    which "mutates/attaches job-status display metadata on item"; it is
    given the scope and the host and writes the job status of that host. *)
Definition SetStatus (sc : Scope) (host : loc) (σ : gmap loc Host.t)
  : gmap loc Host.t :=
  alter (fun h => Host.set_job_status (Some (resolveStatus sc h)) h) host σ.

(** [setJobStatus]: [SetStatus] on every element of [$scope.hosts]. *)
Definition setJobStatus (st : State) : State :=
  with_heap
    (forEach (hosts (scope st)) (fun value => SetStatus (scope st) value))
    st.

(** The source's local [list] is [DashboardHostsList]. *)
Definition defaultUrl : string := GetBasePath "hosts".

(** [$scope.editHost] *)
Definition editHost (id : Z) (st : State) : State :=
  emit (StateGo "dashboardHosts.edit" id) st.

(** The predicate given to [_.findIndex]: [o.id === res.data.id]. *)
Definition id_matches (σ : gmap loc Host.t) (res : Response) (o : loc)
  : bool :=
  match σ !! o with
  | Some h => (Host.id h =? data_id (data res))%Z
  | None => false
  end.

(** The success callback of [toggleHostEnabled].  [$scope.hosts[index]] is
    [undefined] when [$scope.hosts] is absent or [index] is out of range,
    and assigning a property of [undefined] raises a [TypeError]. *)
Definition toggleHostEnabled_then (res : Response) (st : State) : Outcome :=
  let index :=
    findIndex (hosts (scope st)) (id_matches (heap st) res) in
  match hosts (scope st) ≫= (fun a => array_get a index) with
  | Some o =>
      Normal
        (with_heap (alter (Host.set_enabled (data_enabled (data res))) o) st)
  | None => Throw TypeError st
  end.

(** [$scope.toggleHostEnabled]: the call to the host service, with the
    negation of the host's flag.  The callback above runs when the
    service's promise resolves; there is no rejection callback.  Reading
    [host.enabled] through a reference that denotes no object raises a
    [TypeError]. *)
Definition toggleHostEnabled (host : loc) (st : State) : Outcome :=
  match heap st !! host with
  | Some h => Normal (emit (SetHostStatus host (negb (Host.enabled h))) st)
  | None => Throw TypeError st
  end.

(** The callback given to [_.map] in the [PostRefresh] handler. *)
Definition derive_inventory (value : loc) (σ : gmap loc Host.t)
  : loc * gmap loc Host.t :=
  let σ1 :=
    alter (fun h => Host.set_inventory_name
                      (Some (inv_name (inventory (Host.summary_fields h)))) h)
          value σ in
  let σ2 :=
    alter (fun h => Host.set_inventory_id
                      (Some (inv_id (inventory (Host.summary_fields h)))) h)
          value σ1 in
  (value, σ2).

(** The [PostRefresh] handler. *)
Definition onPostRefresh (st : State) : State :=
  let '(mapped, σ) :=
    lodash_map (hosts (scope st)) derive_inventory (heap st) in
  let st1 :=
    mkState (set_hosts (Some mapped) (scope st)) σ
            (stateChangeListener st) (calls st) in
  setJobStatus st1.

(** The [$stateChangeSuccess] listener. *)
Definition onStateChangeSuccess (toState : ToState) (toParams : ToParams)
  (sc : Scope) : Scope :=
  if String.eqb (to_name toState) "dashboardHosts.edit" then
    set_listBeingEdited (Some "hosts")
      (set_rowBeingEdited (Some (to_id toParams)) sc)
  else
    set_listBeingEdited None (set_rowBeingEdited None sc).

(** The [$destroy] handler: [cleanUpStateChangeListener()], the
    deregistration function that [$rootScope.$on] returned. *)
Definition onDestroy (st : State) : State :=
  mkState (scope st) (heap st) false (calls st).

(** [init], with the injected page [hosts] and [$state]. *)
Definition init (hosts_ : Page) (state_ : RouterState) (st : State) : State :=
  let st := with_scope (set_list_ (Some DashboardHostsList)) st in
  let st := with_scope (set_host_active_search (Some false)) st in
  let st :=
    with_scope
      (set_host_total_rows (Some (Z.of_nat (length (results hosts_))))) st in
  let st := with_scope (set_hosts (Some (results hosts_))) st in
  let st := setJobStatus st in
  let st := emit (GeneratorInject DashboardHostsList "edit") st in
  let st := emit (SearchInit "hosts" DashboardHostsList defaultUrl) st in
  let st := emit (PaginateInit DashboardHostsList defaultUrl 10) st in
  let st :=
    emit (PageRangeSetup (count hosts_) (next hosts_) (previous hosts_)
                         (iterator DashboardHostsList)) st in
  let st := with_scope (set_hostLoading (Some false)) st in
  let st :=
    if String.eqb (current_name state_) "dashboardHosts.edit" then
      with_scope (set_listBeingEdited (Some "hosts"))
        (with_scope (set_rowBeingEdited (Some (params_id state_))) st)
    else st in
  emit (ScopeSearch (iterator DashboardHostsList)) st.

(** The controller function: it sets the page size, defines the handlers,
    registers the listeners and runs [init].  [σ] holds the objects of the
    injected page. *)
Definition controller (hosts_ : Page) (state_ : RouterState)
  (σ : gmap loc Host.t) : State :=
  init hosts_ state_
    (mkState (set_hostPageSize (Some 10%Z) empty_scope) σ true []).

(** ** Events *)

(** What can happen to a constructed controller: the view calls
    [editHost] or [toggleHostEnabled], the host service's promise settles,
    [PostRefresh] is broadcast, the router emits [$stateChangeSuccess],
    the scope is destroyed. *)
Inductive Event :=
| EditHost (id : Z)
| ToggleHostEnabled (host : loc)
| SetHostStatusResolved (res : Response)
| SetHostStatusRejected (reason : string)
| PostRefresh
| StateChangeSuccess (toState : ToState) (toParams : ToParams)
| Destroy.

(** The handler that an event runs.  [$stateChangeSuccess] reaches the
    listener only while it is registered on [$rootScope]; a rejected promise
    finds no callback to run. *)
Definition dispatch (e : Event) (st : State) : Outcome :=
  match e with
  | EditHost id => Normal (editHost id st)
  | ToggleHostEnabled host => toggleHostEnabled host st
  | SetHostStatusResolved res => toggleHostEnabled_then res st
  | SetHostStatusRejected _ => Normal st
  | PostRefresh => Normal (onPostRefresh st)
  | StateChangeSuccess toState toParams =>
      if stateChangeListener st then
        Normal (with_scope (onStateChangeSuccess toState toParams) st)
      else Normal st
  | Destroy => Normal (onDestroy st)
  end.

(** The event loop: an exception ends the handler that raised it, not the
    loop. *)
Definition run (es : list Event) (st : State) : State :=
  foldl (fun s e => after (dispatch e s)) st es.

(** ** Notions used in the statements *)

(** Identifiers are unique within the Snapshot. *)
Definition ids_unique (σ : gmap loc Host.t) (ls : list loc) : Prop :=
  forall l1 l2 h1 h2,
    l1 ∈ ls -> l2 ∈ ls -> σ !! l1 = Some h1 -> σ !! l2 = Some h2 ->
    Host.id h1 = Host.id h2 -> l1 = l2.

(** No Item of the Snapshot carries the identifier of the response. *)
Definition id_absent (st : State) (res : Response) : Prop :=
  forall l h,
    l ∈ collection (hosts (scope st)) -> heap st !! l = Some h ->
    Host.id h <> data_id (data res).

(** [h'] differs from [h] at most in the derived inventory fields and the
    job status. *)
Definition same_source_fields (h h' : Host.t) : Prop :=
  Host.id h' = Host.id h /\ Host.name h' = Host.name h
  /\ Host.enabled h' = Host.enabled h
  /\ Host.summary_fields h' = Host.summary_fields h
  /\ Host.rest h' = Host.rest h.

(** [h'] differs from [h] at most in the job status. *)
Definition same_but_status (h h' : Host.t) : Prop :=
  same_source_fields h h'
  /\ Host.inventory_name h' = Host.inventory_name h
  /\ Host.inventory_id h' = Host.inventory_id h.

(** The derived inventory fields of [h] agree with its summary fields. *)
Definition inventory_derived (h : Host.t) : Prop :=
  Host.inventory_name h
    = Some (inv_name (inventory (Host.summary_fields h)))
  /\ Host.inventory_id h
    = Some (inv_id (inventory (Host.summary_fields h))).

(** What the [_.map] callback does to the object it is given. *)
Definition deriveF (h : Host.t) : Host.t :=
  Host.set_inventory_id
    (Some (inv_id (inventory (Host.summary_fields h))))
    (Host.set_inventory_name
       (Some (inv_name (inventory (Host.summary_fields h)))) h).

(** What [SetStatus] does to the object it is given. *)
Definition statusF (sc : Scope) (h : Host.t) : Host.t :=
  Host.set_job_status (Some (resolveStatus sc h)) h.

(** The Edit-Tracking state machine in the specification's words: a
    navigation-state-change into this list's edit state leads to
    [Editing] with the list's name and the destination row id, one into
    any other state leads to [NoneEditing], and nothing else moves the
    marker.  The listener only hears events while it is registered. *)
Definition spec_edit_transition (e : Event) (listening : bool)
  (t : EditTracking) : EditTracking :=
  match e with
  | StateChangeSuccess toState toParams =>
      if listening then
        if String.eqb (to_name toState) "dashboardHosts.edit"
        then Editing "hosts" (to_id toParams)
        else NoneEditing
      else t
  | _ => t
  end.

(** The marker that initialization leaves, in the specification's words. *)
Definition spec_edit_init (state_ : RouterState) (t : EditTracking)
  : EditTracking :=
  if String.eqb (current_name state_) "dashboardHosts.edit"
  then Editing "hosts" (params_id state_)
  else t.

(** Every reference of the Snapshot denotes an object. *)
Definition heap_closed (st : State) : Prop :=
  forall l, l ∈ collection (hosts (scope st)) -> is_Some (heap st !! l).

(** [h'] has the properties of [h] that come from the API and that no
    handler writes: everything but [enabled], the derived inventory fields
    and the job status. *)
Definition same_identity (h h' : Host.t) : Prop :=
  Host.id h' = Host.id h /\ Host.name h' = Host.name h
  /\ Host.summary_fields h' = Host.summary_fields h
  /\ Host.rest h' = Host.rest h.

(** The event is the resolution of the host service's promise. *)
Definition is_resolved (e : Event) : bool :=
  match e with SetHostStatusResolved _ => true | _ => false end.

Definition is_destroy (e : Event) : bool :=
  match e with Destroy => true | _ => false end.

(** The event is a call of one of the two functions the view can call. *)
Definition is_view_action (e : Event) : bool :=
  match e with EditHost _ | ToggleHostEnabled _ => true | _ => false end.

(** The call is a navigation request or a request to the host service. *)
Definition is_request (c : Call) : bool :=
  match c with StateGo _ _ | SetHostStatus _ _ => true | _ => false end.

(** ** Lemmas on the lodash functions *)

Lemma findIndex_from_none {A} (p : A -> bool) (xs : list A) (i : Z) :
  Forall (fun x => p x = false) xs -> findIndex_from p xs i = (-1)%Z.
Proof.
  intros Hall. revert i.
  induction Hall as [|x xs Hx _ IH]; intros i; simpl; [done|].
  rewrite Hx. apply IH.
Qed.

Lemma findIndex_from_found {A} (p : A -> bool) (xs : list A) (i : Z) :
  Exists (fun x => p x = true) xs ->
  exists (k : nat) (x : A),
    findIndex_from p xs i = (i + Z.of_nat k)%Z
    /\ xs !! k = Some x /\ p x = true.
Proof.
  intros Hex. revert i.
  induction xs as [|y ys IH]; intros i; [by inversion Hex|].
  simpl. destruct (p y) eqn:Hy.
  - exists 0%nat, y. split; [lia|done].
  - assert (Exists (fun x => p x = true) ys) as Hys.
    { inversion Hex; subst; [congruence|done]. }
    destruct (IH Hys (i + 1)%Z) as (k & x & Hk & Hlk & Hpx).
    exists (S k), x. split; [lia|done].
Qed.

Lemma array_get_of_nat {A} (a : list A) (k : nat) :
  array_get a (0 + Z.of_nat k)%Z = a !! k.
Proof.
  unfold array_get.
  destruct (Z.ltb_spec (0 + Z.of_nat k) 0) as [Hlt|_]; [lia|].
  by rewrite Z.add_0_l, Nat2Z.id.
Qed.

Lemma array_get_minus_one {A} (a : list A) : array_get a (-1)%Z = None.
Proof. done. Qed.

(** Iterating an in-place update [F] over a list of references applies [F]
    to a referenced object once per occurrence, and to nothing else. *)
Lemma forEach_alter_lookup (F : Host.t -> Host.t) (ls : list loc)
  (σ : gmap loc Host.t) (l : loc) :
  exists n : nat,
    forEach_list (fun x => alter F x) ls σ !! l = Nat.iter n F <$> σ !! l
    /\ (l ∈ ls -> (0 < n)%nat) /\ (l ∉ ls -> n = 0%nat).
Proof.
  revert σ. induction ls as [|x xs IH]; intros σ; simpl.
  - exists 0%nat. split; [by destruct (σ !! l)|].
    split; [by intros ?%elem_of_nil|done].
  - destruct (IH (alter F x σ)) as (n & Hn & Hin & Hnotin).
    destruct (decide (x = l)) as [->|Hne].
    + exists (S n). rewrite Hn, lookup_alter_eq.
      split.
      * destruct (σ !! l) as [h|]; simpl; [|done].
        f_equal. symmetry. apply Nat.iter_succ_r.
      * split; [lia|]. intros Hl. exfalso. apply Hl. left.
    + exists n. rewrite Hn, lookup_alter_ne by done.
      split; [done|]. split.
      * intros [?|?]%elem_of_cons; [congruence|auto].
      * intros Hl. apply Hnotin. intros ?. apply Hl. by right.
Qed.

Lemma iter_idempotent {A} (F : A -> A) (n : nat) (a : A) :
  (forall x, F (F x) = F x) -> (0 < n)%nat -> Nat.iter n F a = F a.
Proof.
  intros Hid Hn. induction n as [|[|n] IH]; [lia|done|].
  change (F (Nat.iter (S n) F a) = F a). rewrite IH by lia. apply Hid.
Qed.

Lemma iter_preserves {A} (R : A -> A -> Prop) (F : A -> A) (n : nat) (a : A) :
  (forall x, R x x) -> (forall x y, R x y -> R x (F y)) ->
  R a (Nat.iter n F a).
Proof.
  intros Hrefl Hstep. induction n as [|n IH]; simpl; auto.
Qed.

Lemma iter_establishes {A} (Q : A -> Prop) (F : A -> A) (n : nat) (a : A) :
  (forall x, Q (F x)) -> (0 < n)%nat -> Q (Nat.iter n F a).
Proof. intros HQ Hn. destruct n; [lia|]. simpl. apply HQ. Qed.

(** ** The enabled toggle *)

Lemma id_absent_no_match (st : State) (res : Response) :
  id_absent st res ->
  Forall (fun o => id_matches (heap st) res o = false)
         (collection (hosts (scope st))).
Proof.
  intros Habs. apply Forall_forall. intros l Hl. unfold id_matches.
  destruct (heap st !! l) as [h|] eqn:Hh; [|done].
  apply Z.eqb_neq. by eapply Habs.
Qed.

(** C1. When the success response carries an id that no Item of the
    current Snapshot has, the identifier lookup finds nothing (index -1)
    and the Snapshot is left unchanged, but the handler does not complete:
    it raises a [TypeError] on [$scope.hosts[-1].enabled]. *)
Theorem toggle_then_absent_id_throws (st : State) (res : Response) :
  id_absent st res ->
  findIndex (hosts (scope st)) (id_matches (heap st) res) = (-1)%Z
  /\ dispatch (SetHostStatusResolved res) st = Throw TypeError st.
Proof.
  intros Habs.
  assert (findIndex (hosts (scope st)) (id_matches (heap st) res) = (-1)%Z)
    as Hidx by (by apply findIndex_from_none, id_absent_no_match).
  split; [done|].
  simpl. unfold toggleHostEnabled_then. rewrite Hidx.
  by destruct (hosts (scope st)).
Qed.

(** The success callback patches the first Item whose id is the one of
    the response, and only its [enabled] flag. *)
Lemma toggle_then_present (st : State) (ls : list loc) (res : Response) :
  hosts (scope st) = Some ls ->
  Exists (fun o => id_matches (heap st) res o = true) ls ->
  exists o,
    o ∈ ls /\ id_matches (heap st) res o = true
    /\ toggleHostEnabled_then res st
       = Normal (with_heap
                   (alter (Host.set_enabled (data_enabled (data res))) o)
                   st).
Proof.
  intros Hls Hex.
  destruct (findIndex_from_found _ _ 0%Z Hex) as (k & o & Hk & Hlk & Hpo).
  exists o. split; [by eapply list_elem_of_lookup_2|]. split; [done|].
  unfold toggleHostEnabled_then, findIndex. rewrite Hls. simpl.
  by rewrite Hk, array_get_of_nat, Hlk.
Qed.


(** C7. When the request of a [toggleEnabled] call is rejected, no
    callback of the controller runs: the scope and every host object,
    the target's [enabled] flag included, are as before the call, and
    the rejection makes no further call to any collaborator. *)
Theorem toggle_rejected_changes_nothing
  (st : State) (host : loc) (reason : string) :
  let st1 := after (dispatch (ToggleHostEnabled host) st) in
  let st2 := after (dispatch (SetHostStatusRejected reason) st1) in
  scope st2 = scope st /\ heap st2 = heap st
  /\ stateChangeListener st2 = stateChangeListener st
  /\ calls st2 = calls st1
  /\ (calls st1 = calls st
      \/ exists h, heap st !! host = Some h
           /\ calls st1
              = (calls st ++ [SetHostStatus host (negb (Host.enabled h))])).
Proof.
  simpl. unfold toggleHostEnabled.
  destruct (heap st !! host) as [h|] eqn:Hh; simpl; repeat split; eauto.
Qed.

(** ** Navigation to the edit view *)

(** C9. [editItem(id)] changes no state of the controller: the scope
    (Snapshot references, edit marker, pagination and search fields), the
    host objects and the listener registration are unchanged; its one
    effect is the navigation request to the edit state with [id]. *)
Theorem editHost_only_navigates (st : State) (id : Z) :
  exists st',
    dispatch (EditHost id) st = Normal st'
    /\ scope st' = scope st /\ heap st' = heap st
    /\ stateChangeListener st' = stateChangeListener st
    /\ calls st' = (calls st ++ [StateGo "dashboardHosts.edit" id]).
Proof. by eexists. Qed.

(** ** The post-refresh handler *)

Lemma derive_inventory_alter (value : loc) (σ : gmap loc Host.t) :
  derive_inventory value σ = (value, alter deriveF value σ).
Proof.
  unfold derive_inventory. f_equal. apply map_eq. intros l.
  destruct (decide (value = l)) as [->|Hne].
  - rewrite !lookup_alter_eq. by destruct (σ !! l).
  - by rewrite !lookup_alter_ne.
Qed.

(** [_.map] with this callback returns the references it was given. *)
Lemma map_derive_inventory (ls : list loc) (σ : gmap loc Host.t) :
  map_list derive_inventory ls σ
  = (ls, forEach_list (fun x => alter deriveF x) ls σ).
Proof.
  revert σ. induction ls as [|x xs IH]; intros σ; cbn [map_list]; [done|].
  by rewrite derive_inventory_alter, IH.
Qed.

Lemma onPostRefresh_unfold (st : State) :
  let ls := collection (hosts (scope st)) in
  let sc := set_hosts (Some ls) (scope st) in
  onPostRefresh st
  = mkState sc
      (forEach_list (fun x => alter (statusF sc) x) ls
         (forEach_list (fun x => alter deriveF x) ls (heap st)))
      (stateChangeListener st) (calls st).
Proof.
  simpl. unfold onPostRefresh, lodash_map.
  by rewrite map_derive_inventory.
Qed.

Lemma deriveF_idempotent (h : Host.t) : deriveF (deriveF h) = deriveF h.
Proof. done. Qed.

Lemma same_source_fields_refl (h : Host.t) : same_source_fields h h.
Proof. by repeat split. Qed.

Lemma same_but_status_refl (h : Host.t) : same_but_status h h.
Proof. by repeat split. Qed.

Lemma same_but_status_statusF (sc : Scope) (h h' : Host.t) :
  same_but_status h h' -> same_but_status h (statusF sc h').
Proof. done. Qed.

Lemma same_source_fields_deriveF (h : Host.t) :
  same_source_fields h (deriveF h).
Proof. by repeat split. Qed.

Lemma inventory_derived_deriveF (h : Host.t) : inventory_derived (deriveF h).
Proof. by split. Qed.

(** The handler touches no object outside the Snapshot, and brings an
    object of the Snapshot to [deriveF] of it, up to the job status. *)
Lemma onPostRefresh_lookup (st : State) (l : loc) :
  (l ∉ collection (hosts (scope st)) ->
   heap (onPostRefresh st) !! l = heap st !! l)
  /\ (l ∈ collection (hosts (scope st)) ->
      forall h, heap st !! l = Some h ->
      exists h', heap (onPostRefresh st) !! l = Some h'
                 /\ same_but_status (deriveF h) h').
Proof.
  rewrite onPostRefresh_unfold. simpl.
  set (ls := collection (hosts (scope st))).
  set (sc := set_hosts (Some ls) (scope st)).
  destruct (forEach_alter_lookup deriveF ls (heap st) l)
    as (n & Hn & Hn_in & Hn_out).
  destruct (forEach_alter_lookup (statusF sc) ls
              (forEach_list (fun x => alter deriveF x) ls (heap st)) l)
    as (m & Hm & Hm_in & Hm_out).
  split.
  - intros Hl. rewrite Hm, Hn, (Hn_out Hl), (Hm_out Hl).
    by destruct (heap st !! l).
  - intros Hl h Hh. rewrite Hm, Hn, Hh. simpl.
    eexists. split; [done|].
    rewrite (iter_idempotent deriveF n h deriveF_idempotent (Hn_in Hl)).
    apply (iter_preserves same_but_status).
    + apply same_but_status_refl.
    + apply same_but_status_statusF.
Qed.

Lemma same_but_status_derived (h h' : Host.t) :
  same_but_status (deriveF h) h' ->
  inventory_derived h' /\ same_source_fields h h'.
Proof.
  intros ((Hid & Hname & Hen & Hsum & Hrest) & Hin & Hii).
  unfold inventory_derived. rewrite Hin, Hii, Hsum.
  by repeat split.
Qed.

Lemma onPostRefresh_hosts (st : State) :
  hosts (scope (onPostRefresh st)) = Some (collection (hosts (scope st))).
Proof. by rewrite onPostRefresh_unfold. Qed.

(** C4. After a post-refresh signal every Item of the Snapshot has
    [inventory_name] and [inventory_id] equal to the name and id of its
    [summary_fields.inventory] (which the handler leaves as they were),
    and a second run of the handler changes no field of an Item but,
    possibly, the job status: the derived fields are the same. *)
Theorem postRefresh_derives_inventory (st : State) (l : loc) (h : Host.t) :
  l ∈ collection (hosts (scope st)) ->
  heap st !! l = Some h ->
  let st1 := after (dispatch PostRefresh st) in
  let st2 := after (dispatch PostRefresh st1) in
  l ∈ collection (hosts (scope st1))
  /\ exists h1 h2,
       heap st1 !! l = Some h1 /\ heap st2 !! l = Some h2
       /\ inventory_derived h1
       /\ Host.summary_fields h1 = Host.summary_fields h
       /\ Host.inventory_name h2 = Host.inventory_name h1
       /\ Host.inventory_id h2 = Host.inventory_id h1
       /\ inventory_derived h2
       /\ same_but_status h1 h2.
Proof.
  intros Hl Hh. simpl.
  assert (l ∈ collection (hosts (scope (onPostRefresh st)))) as Hl1
    by (by rewrite onPostRefresh_hosts).
  split; [done|].
  destruct (onPostRefresh_lookup st l) as [_ H1].
  destruct (H1 Hl h Hh) as (h1 & Hh1 & Hs1).
  destruct (onPostRefresh_lookup (onPostRefresh st) l) as [_ H2].
  destruct (H2 Hl1 h1 Hh1) as (h2 & Hh2 & Hs2).
  destruct (same_but_status_derived _ _ Hs1) as [Hd1 Hf1].
  destruct (same_but_status_derived _ _ Hs2) as [Hd2 Hf2].
  assert (Host.inventory_name h2 = Host.inventory_name h1
          /\ Host.inventory_id h2 = Host.inventory_id h1) as [Hname Hid].
  { destruct Hd1 as [Hn1 Hi1], Hd2 as [Hn2 Hi2].
    destruct Hf2 as (_ & _ & _ & Hsum & _).
    by rewrite Hn1, Hn2, Hi1, Hi2, Hsum. }
  exists h1, h2.
  split; [done|]. split; [done|]. split; [done|].
  split; [apply Hf1|]. split; [done|]. split; [done|]. split; [done|].
  by split.
Qed.

Lemma onPostRefresh_lookup_None (st : State) (l : loc) :
  heap st !! l = None -> heap (onPostRefresh st) !! l = None.
Proof.
  intros Hnone. rewrite onPostRefresh_unfold. simpl.
  set (ls := collection (hosts (scope st))).
  set (sc := set_hosts (Some ls) (scope st)).
  destruct (forEach_alter_lookup deriveF ls (heap st) l) as (n & Hn & _).
  destruct (forEach_alter_lookup (statusF sc) ls
              (forEach_list (fun x => alter deriveF x) ls (heap st)) l)
    as (m & Hm & _).
  by rewrite Hm, Hn, Hnone.
Qed.

(** C10. The post-refresh handler stores back the very references it
    found, in their order; of the scope it assigns [hosts] only; of an
    object it leaves [id], [name], [enabled], [summary_fields] and the
    remaining properties as they were (so it writes at most the derived
    inventory fields and the job status), it neither creates nor removes
    an object, it does not touch an object outside the Snapshot, and it
    calls no collaborator other than the status resolver. *)
Theorem postRefresh_frame (st : State) :
  let st' := after (dispatch PostRefresh st) in
  collection (hosts (scope st')) = collection (hosts (scope st))
  /\ scope st' = set_hosts (Some (collection (hosts (scope st)))) (scope st)
  /\ (forall l : loc,
        option_Forall2 same_source_fields (heap st !! l) (heap st' !! l))
  /\ (forall l : loc,
        l ∉ collection (hosts (scope st)) -> heap st' !! l = heap st !! l)
  /\ stateChangeListener st' = stateChangeListener st
  /\ calls st' = calls st.
Proof.
  simpl. split; [by rewrite onPostRefresh_hosts|].
  split; [by rewrite onPostRefresh_unfold|].
  split; [|split; [|by rewrite onPostRefresh_unfold]].
  - intros l. destruct (heap st !! l) as [h|] eqn:Hh.
    + destruct (decide (l ∈ collection (hosts (scope st)))) as [Hl|Hl].
      * destruct (onPostRefresh_lookup st l) as [_ Hin].
        destruct (Hin Hl h Hh) as (h' & -> & Hs).
        constructor. by apply same_but_status_derived.
      * destruct (onPostRefresh_lookup st l) as [Hout _].
        rewrite (Hout Hl), Hh. constructor. apply same_source_fields_refl.
    + rewrite onPostRefresh_lookup_None by done. constructor.
  - intros l Hl. by apply onPostRefresh_lookup.
Qed.

(** ** Edit tracking *)

Lemma onStateChangeSuccess_editTracking
  (toState : ToState) (toParams : ToParams) (sc : Scope) :
  editTracking (onStateChangeSuccess toState toParams sc)
  = if String.eqb (to_name toState) "dashboardHosts.edit"
    then Editing "hosts" (to_id toParams)
    else NoneEditing.
Proof.
  unfold onStateChangeSuccess.
  by destruct (String.eqb (to_name toState) "dashboardHosts.edit").
Qed.

(** An event other than a heard [$stateChangeSuccess] leaves both
    properties of the marker as they are. *)
Lemma dispatch_edit_fields (e : Event) (st : State) :
  (forall toState toParams, e <> StateChangeSuccess toState toParams)
  \/ stateChangeListener st = false ->
  rowBeingEdited (scope (after (dispatch e st))) = rowBeingEdited (scope st)
  /\ listBeingEdited (scope (after (dispatch e st)))
     = listBeingEdited (scope st).
Proof.
  intros Hcase. destruct e as [id|host|res|reason| |toState toParams| ];
    simpl; try done.
  - unfold toggleHostEnabled. by destruct (heap st !! host).
  - unfold toggleHostEnabled_then.
    by destruct (hosts (scope st) ≫= _).
  - by rewrite onPostRefresh_unfold.
  - destruct Hcase as [Hne|Hoff]; [by destruct (Hne toState toParams)|].
    by rewrite Hoff.
Qed.

Lemma dispatch_editTracking (e : Event) (st : State) :
  editTracking (scope (after (dispatch e st)))
  = spec_edit_transition e (stateChangeListener st)
      (editTracking (scope st)).
Proof.
  destruct e as [id|host|res|reason| |toState toParams| ];
    cbn [spec_edit_transition];
    lazymatch goal with
    | |- context [StateChangeSuccess] => idtac
    | |- context [dispatch ?ev _] =>
        destruct (dispatch_edit_fields ev st) as [Hr Hl];
        [left; intros ? ?; discriminate|];
        unfold editTracking; rewrite Hr, Hl; reflexivity
    end.
  cbn [dispatch]. destruct (stateChangeListener st); [|reflexivity].
  apply onStateChangeSuccess_editTracking.
Qed.

Lemma init_editTracking (hosts_ : Page) (state_ : RouterState) (st : State) :
  editTracking (scope (init hosts_ state_ st))
  = spec_edit_init state_ (editTracking (scope st)).
Proof.
  unfold init, spec_edit_init.
  by destruct (String.eqb (current_name state_) "dashboardHosts.edit").
Qed.

Lemma init_listener (hosts_ : Page) (state_ : RouterState) (st : State) :
  stateChangeListener (init hosts_ state_ st) = stateChangeListener st.
Proof.
  unfold init.
  by destruct (String.eqb (current_name state_) "dashboardHosts.edit").
Qed.

Lemma spec_edit_transition_not_partial (e : Event) (b : bool)
  (t : EditTracking) :
  t <> PartiallySet -> spec_edit_transition e b t <> PartiallySet.
Proof.
  intros Ht. destruct e; simpl; try done.
  destruct b; [|done]. by destruct (String.eqb _ _).
Qed.

Lemma run_not_partial (es : list Event) (st : State) :
  editTracking (scope st) <> PartiallySet ->
  editTracking (scope (run es st)) <> PartiallySet.
Proof.
  revert st. induction es as [|e es IH]; intros st Hst; [done|].
  apply IH. rewrite dispatch_editTracking.
  by apply spec_edit_transition_not_partial.
Qed.

(** C5. The [$stateChangeSuccess] listener leaves, from any scope, either
    both properties of the marker set (to "hosts" and the destination row
    id) or both absent; and no state that a controller reaches, from its
    construction through any sequence of events, has one of the two
    properties without the other. *)
Theorem edit_tracking_never_partial :
  (forall (toState : ToState) (toParams : ToParams) (sc : Scope),
     let sc' := onStateChangeSuccess toState toParams sc in
     (listBeingEdited sc' = Some "hosts"
      /\ rowBeingEdited sc' = Some (to_id toParams))
     \/ (listBeingEdited sc' = None /\ rowBeingEdited sc' = None))
  /\ (forall (hosts_ : Page) (state_ : RouterState) (σ : gmap loc Host.t)
             (es : list Event),
        editTracking (scope (run es (controller hosts_ state_ σ)))
        <> PartiallySet).
Proof.
  split.
  - intros toState toParams sc. simpl. unfold onStateChangeSuccess.
    destruct (String.eqb (to_name toState) "dashboardHosts.edit");
      [by left|by right].
  - intros hosts_ state_ σ es. apply run_not_partial.
    unfold controller. rewrite init_editTracking. unfold spec_edit_init.
    by destruct (String.eqb (current_name state_) "dashboardHosts.edit").
Qed.

(** C6. The controller refines the Edit-Tracking state machine: every
    event moves the marker as [spec_edit_transition] says (a heard
    navigation-state-change into "dashboardHosts.edit" leads from any
    state to [Editing "hosts" id], one into any other state leads to
    [NoneEditing], every other event leaves the marker), and
    initialization sets [Editing "hosts" id] from the router's parameters
    when its current state is "dashboardHosts.edit" and leaves the marker
    otherwise. *)
Theorem edit_tracking_transitions :
  (forall (e : Event) (st : State),
     editTracking (scope (after (dispatch e st)))
     = spec_edit_transition e (stateChangeListener st)
         (editTracking (scope st)))
  /\ (forall (hosts_ : Page) (state_ : RouterState) (st : State),
        editTracking (scope (init hosts_ state_ st))
        = spec_edit_init state_ (editTracking (scope st)))
  /\ (forall (hosts_ : Page) (state_ : RouterState) (σ : gmap loc Host.t),
        let st := controller hosts_ state_ σ in
        stateChangeListener st = true
        /\ editTracking (scope st) = spec_edit_init state_ NoneEditing).
Proof.
  split; [exact dispatch_editTracking|].
  split; [exact init_editTracking|].
  intros hosts_ state_ σ. cbv zeta. unfold controller.
  split; [by rewrite init_listener|by rewrite init_editTracking].
Qed.

Lemma run_app (es1 es2 : list Event) (st : State) :
  run (es1 ++ es2) st = run es2 (run es1 st).
Proof. apply foldl_app. Qed.

Lemma dispatch_listener_off (e : Event) (st : State) :
  stateChangeListener st = false ->
  stateChangeListener (after (dispatch e st)) = false.
Proof.
  intros Hoff. destruct e as [id|host|res|reason| |toState toParams| ];
    simpl; try done.
  - unfold toggleHostEnabled. by destruct (heap st !! host).
  - unfold toggleHostEnabled_then.
    by destruct (hosts (scope st) ≫= _).
  - by rewrite onPostRefresh_unfold.
  - by rewrite Hoff.
Qed.

Lemma run_listener_off (es : list Event) (st : State) :
  stateChangeListener st = false ->
  stateChangeListener (run es st) = false
  /\ rowBeingEdited (scope (run es st)) = rowBeingEdited (scope st)
  /\ listBeingEdited (scope (run es st)) = listBeingEdited (scope st).
Proof.
  revert st. induction es as [|e es IH]; intros st Hoff; [done|].
  destruct (IH (after (dispatch e st)) (dispatch_listener_off e st Hoff))
    as (Hl & Hr & Hn).
  destruct (dispatch_edit_fields e st (or_intror Hoff)) as [Hr' Hn'].
  change (run (e :: es) st) with (run es (after (dispatch e st))).
  by rewrite Hl, Hr, Hn, Hr', Hn'.
Qed.

(** C8. Once the scope is destroyed the listener is deregistered and
    stays so: whatever events follow the disposal, navigation events
    included, both properties of the edit marker are as the disposal left
    them. *)
Theorem no_edit_tracking_change_after_destroy
  (before later : list Event) (st : State) :
  let disposed := run (before ++ [Destroy]) st in
  let final := run (before ++ Destroy :: later) st in
  stateChangeListener disposed = false
  /\ stateChangeListener final = false
  /\ rowBeingEdited (scope final) = rowBeingEdited (scope disposed)
  /\ listBeingEdited (scope final) = listBeingEdited (scope disposed)
  /\ editTracking (scope final) = editTracking (scope disposed).
Proof.
  simpl.
  assert (stateChangeListener (run (before ++ [Destroy]) st) = false)
    as Hoff by (by rewrite run_app).
  replace (before ++ Destroy :: later)
    with ((before ++ [Destroy]) ++ later) by (by rewrite <- app_assoc).
  rewrite (run_app (before ++ [Destroy]) later).
  destruct (run_listener_off later _ Hoff) as (Hl & Hr & Hn).
  unfold editTracking. by rewrite Hl, Hr, Hn.
Qed.

(** ** Initialization *)


(** ** Further properties of the enabled toggle *)

Lemma match_or_none {A} (p : A -> bool) (xs : list A) :
  Forall (fun x => p x = false) xs \/ Exists (fun x => p x = true) xs.
Proof.
  induction xs as [|x xs [IH|IH]].
  - left. constructor.
  - destruct (p x) eqn:Hx; [right; by left|left; by constructor].
  - right. by right.
Qed.

Lemma findIndex_from_first {A} (p : A -> bool) (pre suf : list A) (o : A)
  (i : Z) :
  Forall (fun x => p x = false) pre -> p o = true ->
  findIndex_from p (pre ++ o :: suf) i = (i + Z.of_nat (length pre))%Z.
Proof.
  intros Hpre Ho. revert i.
  induction Hpre as [|x pre Hx _ IH]; intros i; simpl.
  - rewrite Ho. lia.
  - rewrite Hx, IH. lia.
Qed.

(** The success callback completes exactly when some Item of the Snapshot
    carries the identifier of the response; in every other case, an absent
    [$scope.hosts] included, it raises the [TypeError]. *)
Theorem toggle_then_completes_iff (st : State) (res : Response) :
  (exists st', toggleHostEnabled_then res st = Normal st')
  <-> (exists l h,
         l ∈ collection (hosts (scope st)) /\ heap st !! l = Some h
         /\ Host.id h = data_id (data res)).
Proof.
  split.
  - intros [st' Hnormal].
    destruct (match_or_none (id_matches (heap st) res)
                (collection (hosts (scope st)))) as [Hnone|Hsome].
    + exfalso. unfold toggleHostEnabled_then, findIndex in Hnormal.
      rewrite (findIndex_from_none _ _ 0%Z Hnone) in Hnormal.
      by destruct (hosts (scope st)).
    + apply Exists_exists in Hsome as (l & Hl & Hm).
      unfold id_matches in Hm.
      destruct (heap st !! l) as [h|] eqn:Hh; [|done].
      exists l, h. by apply Z.eqb_eq in Hm.
  - intros (l & h & Hl & Hh & Hid).
    destruct (hosts (scope st)) as [ls|] eqn:Hls;
      [|by apply elem_of_nil in Hl].
    assert (Exists (fun o => id_matches (heap st) res o = true) ls) as Hex.
    { apply Exists_exists. exists l. split; [done|].
      unfold id_matches. rewrite Hh. by apply Z.eqb_eq. }
    destruct (toggle_then_present st ls res Hls Hex) as (o & _ & _ & Hthen).
    eauto.
Qed.

(** [_.findIndex] stops at the first match: of several Items with the
    identifier of the response, the success callback patches the first one
    in the order of the array, and only its [enabled] flag; no other
    object changes, and neither does the scope. *)
Theorem toggle_then_patches_first_match
  (st : State) (pre suf : list loc) (o : loc) (h : Host.t) (res : Response) :
  hosts (scope st) = Some (pre ++ o :: suf) ->
  Forall (fun l => id_matches (heap st) res l = false) pre ->
  heap st !! o = Some h ->
  Host.id h = data_id (data res) ->
  exists st',
    toggleHostEnabled_then res st = Normal st'
    /\ heap st' !! o = Some (Host.set_enabled (data_enabled (data res)) h)
    /\ (forall l, l <> o -> heap st' !! l = heap st !! l)
    /\ scope st' = scope st /\ calls st' = calls st.
Proof.
  intros Hls Hpre Hh Hid.
  assert (id_matches (heap st) res o = true) as Ho.
  { unfold id_matches. rewrite Hh. by apply Z.eqb_eq. }
  eexists. split.
  - unfold toggleHostEnabled_then, findIndex. rewrite Hls. simpl.
    rewrite (findIndex_from_first _ pre suf o 0%Z Hpre Ho).
    rewrite array_get_of_nat, list_lookup_middle by done. reflexivity.
  - simpl. split; [by rewrite lookup_alter_eq, Hh|].
    split; [|done]. intros l Hl. by rewrite lookup_alter_ne.
Qed.

Lemma ids_unique_alter_enabled (σ : gmap loc Host.t) (ls : list loc)
  (i : loc) (v : bool) :
  ids_unique σ ls -> ids_unique (alter (Host.set_enabled v) i σ) ls.
Proof.
  intros Huniq l1 l2 h1 h2 Hl1 Hl2 Hh1 Hh2 Hid.
  assert (forall l h', alter (Host.set_enabled v) i σ !! l = Some h' ->
            exists h, σ !! l = Some h /\ Host.id h = Host.id h') as Hback.
  { intros l h' Hl. destruct (decide (i = l)) as [->|Hne].
    - rewrite lookup_alter_eq in Hl. destruct (σ !! l) as [h|]; [|done].
      injection Hl as <-. by exists h.
    - rewrite lookup_alter_ne in Hl by done. by exists h'. }
  destruct (Hback _ _ Hh1) as (k1 & Hk1 & Hi1).
  destruct (Hback _ _ Hh2) as (k2 & Hk2 & Hi2).
  apply (Huniq l1 l2 k1 k2); try done. congruence.
Qed.

(** One full cycle: the call, then the response for the Item itself. *)
Lemma toggle_cycle (st : State) (ls : list loc) (i : loc) (hi : Host.t)
  (v : bool) :
  hosts (scope st) = Some ls -> i ∈ ls -> heap st !! i = Some hi ->
  ids_unique (heap st) ls ->
  run [ToggleHostEnabled i;
       SetHostStatusResolved (mkResponse (mkHostData (Host.id hi) v))] st
  = mkState (scope st) (alter (Host.set_enabled v) i (heap st))
            (stateChangeListener st)
            (calls st ++ [SetHostStatus i (negb (Host.enabled hi))]).
Proof.
  intros Hls Hi Hhi Huniq.
  change (run [ToggleHostEnabled i; SetHostStatusResolved ?r] st)
    with (after (dispatch (SetHostStatusResolved r)
                   (after (dispatch (ToggleHostEnabled i) st)))).
  assert (after (dispatch (ToggleHostEnabled i) st)
          = emit (SetHostStatus i (negb (Host.enabled hi))) st) as ->.
  { simpl. unfold toggleHostEnabled. by rewrite Hhi. }
  set (st1 := emit (SetHostStatus i (negb (Host.enabled hi))) st).
  set (res := mkResponse (mkHostData (Host.id hi) v)).
  assert (Exists (fun o => id_matches (heap st1) res o = true) ls) as Hex.
  { apply Exists_exists. exists i. split; [done|].
    unfold id_matches. simpl. rewrite Hhi. apply Z.eqb_refl. }
  destruct (toggle_then_present st1 ls res Hls Hex) as (o & Ho & Hm & Hthen).
  assert (o = i) as ->.
  { unfold id_matches in Hm. simpl in Hm.
    destruct (heap st !! o) as [ho|] eqn:Hho; [|done].
    apply Z.eqb_eq in Hm. by eapply Huniq. }
  cbn [dispatch]. by rewrite Hthen.
Qed.

(** Two toggles of an Item, each answered by the server with the value that
    was requested, request the negated flag and then the original one, and
    bring every host object back to what it was; the scope is unchanged
    throughout. *)
Theorem toggle_round_trip
  (st : State) (ls : list loc) (i : loc) (hi : Host.t) :
  hosts (scope st) = Some ls ->
  i ∈ ls ->
  heap st !! i = Some hi ->
  ids_unique (heap st) ls ->
  let confirm v := SetHostStatusResolved (mkResponse (mkHostData (Host.id hi) v)) in
  let st' :=
    run [ToggleHostEnabled i; confirm (negb (Host.enabled hi));
         ToggleHostEnabled i; confirm (Host.enabled hi)] st in
  heap st' = heap st /\ scope st' = scope st
  /\ calls st'
     = calls st ++ [SetHostStatus i (negb (Host.enabled hi));
                    SetHostStatus i (Host.enabled hi)].
Proof.
  intros Hls Hi Hhi Huniq confirm st'. subst st' confirm. cbv beta.
  assert (forall a b c d, run [a; b; c; d] st = run [c; d] (run [a; b] st))
    as -> by reflexivity.
  rewrite (toggle_cycle st ls i hi (negb (Host.enabled hi)) Hls Hi Hhi Huniq).
  set (st2 := mkState _ _ _ _).
  set (h2 := Host.set_enabled (negb (Host.enabled hi)) hi).
  assert (heap st2 !! i = Some h2) as Hh2
    by (subst st2; simpl; by rewrite lookup_alter_eq, Hhi).
  assert (ids_unique (heap st2) ls) as Huniq2
    by (by apply ids_unique_alter_enabled).
  change (Host.id hi) with (Host.id h2).
  rewrite (toggle_cycle st2 ls i h2 (Host.enabled hi) Hls Hi Hh2 Huniq2).
  simpl. split; [|split; [done|]].
  - apply map_eq. intros l. destruct (decide (i = l)) as [->|Hne].
    + rewrite !lookup_alter_eq, Hhi. by destruct hi.
    + by rewrite !lookup_alter_ne.
  - by rewrite <- app_assoc, Bool.negb_involutive.
Qed.

(** ** What no event does *)

Lemma onPostRefresh_source_fields (st : State) (l : loc) :
  option_Forall2 same_source_fields
    (heap st !! l) (heap (onPostRefresh st) !! l).
Proof.
  destruct (heap st !! l) as [h|] eqn:Hh.
  - destruct (decide (l ∈ collection (hosts (scope st)))) as [Hl|Hl].
    + destruct (onPostRefresh_lookup st l) as [_ Hin].
      destruct (Hin Hl h Hh) as (h' & -> & Hs).
      constructor. by apply same_but_status_derived.
    + destruct (onPostRefresh_lookup st l) as [Hout _].
      rewrite (Hout Hl), Hh. constructor. apply same_source_fields_refl.
  - rewrite onPostRefresh_lookup_None by done. constructor.
Qed.

Lemma same_identity_refl (h : Host.t) : same_identity h h.
Proof. by repeat split. Qed.

Lemma same_identity_trans (h1 h2 h3 : Host.t) :
  same_identity h1 h2 -> same_identity h2 h3 -> same_identity h1 h3.
Proof.
  intros (Ha & Hb & Hc & Hd) (Ha' & Hb' & Hc' & Hd').
  repeat split; congruence.
Qed.

Lemma option_same_identity_refl (o : option Host.t) :
  option_Forall2 same_identity o o.
Proof. destruct o; constructor. apply same_identity_refl. Qed.

Lemma option_same_identity_trans (o1 o2 o3 : option Host.t) :
  option_Forall2 same_identity o1 o2 -> option_Forall2 same_identity o2 o3 ->
  option_Forall2 same_identity o1 o3.
Proof.
  intros H12 H23. destruct H12 as [h1 h2 H12|]; inversion H23; subst;
    constructor. by eapply same_identity_trans.
Qed.

(** One event leaves the identity of every object. *)
Lemma dispatch_identity (e : Event) (st : State) (l : loc) :
  option_Forall2 same_identity
    (heap st !! l) (heap (after (dispatch e st)) !! l).
Proof.
  destruct e as [id|host|res|reason| |toState toParams| ]; simpl;
    try apply option_same_identity_refl.
  - unfold toggleHostEnabled.
    destruct (heap st !! host); apply option_same_identity_refl.
  - unfold toggleHostEnabled_then.
    destruct (hosts (scope st) ≫= _) as [o|];
      [|apply option_same_identity_refl].
    simpl. destruct (decide (o = l)) as [->|Hne].
    + rewrite lookup_alter_eq. destruct (heap st !! l); by constructor.
    + rewrite lookup_alter_ne by done. apply option_same_identity_refl.
  - destruct (onPostRefresh_source_fields st l) as [h h' Hs|];
      constructor. destruct Hs as (? & ? & _ & ? & ?). by repeat split.
  - destruct (stateChangeListener st); apply option_same_identity_refl.
Qed.

(** One event leaves the references of the Snapshot. *)
Lemma dispatch_hosts (e : Event) (st : State) :
  collection (hosts (scope (after (dispatch e st))))
  = collection (hosts (scope st)).
Proof.
  destruct e as [id|host|res|reason| |toState toParams| ]; simpl; try done.
  - unfold toggleHostEnabled. by destruct (heap st !! host).
  - unfold toggleHostEnabled_then. by destruct (hosts (scope st) ≫= _).
  - by rewrite onPostRefresh_hosts.
  - destruct (stateChangeListener st); [|done]. simpl.
    unfold onStateChangeSuccess. by destruct (String.eqb _ _).
Qed.

Lemma run_cons (e : Event) (es : list Event) (st : State) :
  run (e :: es) st = run es (after (dispatch e st)).
Proof. done. Qed.

Lemma run_identity (es : list Event) (st : State) (l : loc) :
  option_Forall2 same_identity (heap st !! l) (heap (run es st) !! l).
Proof.
  revert st. induction es as [|e es IH]; intros st.
  - apply option_same_identity_refl.
  - rewrite run_cons. eapply option_same_identity_trans; [|apply IH].
    apply dispatch_identity.
Qed.

Lemma run_hosts (es : list Event) (st : State) :
  collection (hosts (scope (run es st))) = collection (hosts (scope st)).
Proof.
  revert st. induction es as [|e es IH]; intros st; [done|].
  by rewrite run_cons, IH, dispatch_hosts.
Qed.

(** Whatever events a controller handles, it never adds, removes or
    reorders a reference of the Snapshot, never creates or drops a host
    object, and never writes the [id], the [name] or the [summary_fields]
    of an object, nor any of its API properties other than [enabled]
    (which the success callback of a toggle writes). *)
Theorem events_preserve_identity_and_snapshot (es : list Event) (st : State) :
  collection (hosts (scope (run es st))) = collection (hosts (scope st))
  /\ forall l : loc,
       option_Forall2 same_identity (heap st !! l) (heap (run es st) !! l).
Proof. split; [apply run_hosts|intros l; apply run_identity]. Qed.

(** If every reference of the Snapshot denotes an object and identifiers
    are unique within the Snapshot, both stay so under every sequence of
    events. *)
Theorem events_preserve_well_formedness (es : list Event) (st : State) :
  heap_closed st ->
  ids_unique (heap st) (collection (hosts (scope st))) ->
  heap_closed (run es st)
  /\ ids_unique (heap (run es st)) (collection (hosts (scope (run es st)))).
Proof.
  intros Hclosed Huniq. split.
  - intros l Hl. rewrite run_hosts in Hl.
    destruct (Hclosed l Hl) as [h Hh].
    pose proof (run_identity es st l) as Hrel. rewrite Hh in Hrel.
    inversion Hrel; subst. by eexists.
  - rewrite run_hosts. intros l1 l2 h1 h2 Hl1 Hl2 Hh1 Hh2 Hid.
    pose proof (run_identity es st l1) as Hr1. rewrite Hh1 in Hr1.
    pose proof (run_identity es st l2) as Hr2. rewrite Hh2 in Hr2.
    inversion Hr1 as [k1 ? (Hi1 & _) Hk1|]; subst.
    inversion Hr2 as [k2 ? (Hi2 & _) Hk2|]; subst.
    apply (Huniq l1 l2 k1 k2); try done. congruence.
Qed.

Lemma dispatch_enabled (e : Event) (st : State) (l : loc) :
  is_resolved e = false ->
  Host.enabled <$> heap (after (dispatch e st)) !! l
  = Host.enabled <$> heap st !! l.
Proof.
  intros He. destruct e as [id|host|res|reason| |toState toParams| ];
    simpl; try done.
  - unfold toggleHostEnabled. by destruct (heap st !! host).
  - destruct (onPostRefresh_source_fields st l) as [h h' Hs|]; [|done].
    simpl. destruct Hs as (_ & _ & -> & _). done.
  - by destruct (stateChangeListener st).
Qed.

(** There is no optimistic update: as long as no response of the host
    service arrives, no event changes the [enabled] flag of any object, be
    it a toggle call, a rejection, a refresh, a navigation or the
    disposal. *)
Theorem enabled_changes_only_on_response
  (es : list Event) (st : State) (l : loc) :
  Forall (fun e => is_resolved e = false) es ->
  Host.enabled <$> heap (run es st) !! l = Host.enabled <$> heap st !! l.
Proof.
  intros Hall. revert st.
  induction Hall as [|e es He _ IH]; intros st; [done|].
  by rewrite run_cons, IH, dispatch_enabled.
Qed.

Lemma dispatch_calls (e : Event) (st : State) :
  exists new : list Call,
    calls (after (dispatch e st)) = calls st ++ new
    /\ Forall (fun c => is_request c = true) new
    /\ (length new <= if is_view_action e then 1 else 0)%nat.
Proof.
  assert (forall st' b, calls st' = calls st ->
            exists new : list Call,
              calls st' = calls st ++ new
              /\ Forall (fun c => is_request c = true) new
              /\ (length new <= if b : bool then 1 else 0)%nat) as Hnone.
  { intros st' b Heq. exists []. rewrite app_nil_r.
    split; [done|]. split; [constructor|destruct b; simpl; lia]. }
  destruct e as [id|host|res|reason| |toState toParams| ]; simpl.
  - eexists [_]. split; [done|]. split; [by repeat constructor|done].
  - unfold toggleHostEnabled. destruct (heap st !! host) as [h|]; simpl.
    + eexists [_]. split; [done|]. split; [by repeat constructor|done].
    + by apply (Hnone st true).
  - apply (Hnone _ false). unfold toggleHostEnabled_then.
    by destruct (hosts (scope st) ≫= _).
  - by apply (Hnone st false).
  - apply (Hnone _ false). by rewrite onPostRefresh_unfold.
  - apply (Hnone _ false). by destruct (stateChangeListener st).
  - by apply (Hnone _ false).
Qed.

Lemma filter_all_true {A} (p : A -> bool) (xs : list A) :
  Forall (fun x => p x = true) xs -> List.filter p xs = xs.
Proof.
  induction 1 as [|x xs Hx _ IH]; simpl; [done|]. by rewrite Hx, IH.
Qed.

Lemma run_calls (es : list Event) (st : State) :
  exists new : list Call,
    calls (run es st) = calls st ++ new
    /\ Forall (fun c => is_request c = true) new
    /\ (length new <= length (List.filter is_view_action es))%nat.
Proof.
  revert st. induction es as [|e es IH]; intros st.
  - exists []. by rewrite app_nil_r.
  - rewrite run_cons.
    destruct (dispatch_calls e st) as (n1 & Hc1 & Hr1 & Hl1).
    destruct (IH (after (dispatch e st))) as (n2 & Hc2 & Hr2 & Hl2).
    exists (n1 ++ n2). split; [by rewrite Hc2, Hc1, app_assoc|].
    split; [by apply Forall_app|].
    rewrite length_app. simpl. destruct (is_view_action e); simpl; lia.
Qed.

(** After construction the controller navigates or calls the host service
    only when the view calls [editHost] or [toggleHostEnabled], at most
    once per such call: the requests of the log ([$state.go] and
    [setHostStatus]) grow by at most one per view call, earlier ones stay,
    and no callback and no listener adds one.  The statement is about
    these two collaborators only; the status resolver, which the
    post-refresh listener calls once per host, is not in the log. *)
Theorem requests_only_from_view_actions (es : list Event) (st : State) :
  exists new : list Call,
    List.filter is_request (calls (run es st))
    = List.filter is_request (calls st) ++ new
    /\ Forall (fun c => is_request c = true) new
    /\ (length new <= length (List.filter is_view_action es))%nat.
Proof.
  destruct (run_calls es st) as (new & Hcalls & Hreq & Hlen).
  exists new. split; [|done].
  by rewrite Hcalls, List.filter_app, (filter_all_true _ _ Hreq).
Qed.

Lemma dispatch_listener (e : Event) (st : State) :
  stateChangeListener (after (dispatch e st))
  = stateChangeListener st && negb (is_destroy e).
Proof.
  destruct e as [id|host|res|reason| |toState toParams| ];
    cbn [dispatch after is_destroy negb];
    rewrite ?andb_true_r, ?andb_false_r; try done.
  - unfold toggleHostEnabled. by destruct (heap st !! host).
  - unfold toggleHostEnabled_then. by destruct (hosts (scope st) ≫= _).
  - by rewrite onPostRefresh_unfold.
  - by destruct (stateChangeListener st) eqn:Hl.
Qed.

(** The [$stateChangeSuccess] listener is registered after a sequence of
    events exactly when it was registered before and the sequence holds no
    [$destroy]: nothing else deregisters it, and nothing registers it
    again. *)
Theorem listener_registered_until_destroy (es : list Event) (st : State) :
  stateChangeListener (run es st)
  = stateChangeListener st && negb (existsb is_destroy es).
Proof.
  revert st. induction es as [|e es IH]; intros st; simpl existsb.
  - by rewrite andb_true_r.
  - rewrite run_cons, IH, dispatch_listener.
    destruct (stateChangeListener st), (is_destroy e); simpl; try done.
Qed.

(** ** Status derivation at initialization and after a refresh *)

Lemma init_heap_unfold (hosts_ : Page) (state_ : RouterState) (st : State) :
  let sc :=
    set_hosts (Some (results hosts_))
      (set_host_total_rows (Some (Z.of_nat (length (results hosts_))))
         (set_host_active_search (Some false)
            (set_list_ (Some DashboardHostsList) (scope st)))) in
  heap (init hosts_ state_ st)
  = forEach_list (fun x => alter (statusF sc) x) (results hosts_) (heap st).
Proof.
  simpl. unfold init.
  by destruct (String.eqb (current_name state_) "dashboardHosts.edit").
Qed.

Lemma init_hosts (hosts_ : Page) (state_ : RouterState) (st : State) :
  hosts (scope (init hosts_ state_ st)) = Some (results hosts_).
Proof.
  unfold init.
  by destruct (String.eqb (current_name state_) "dashboardHosts.edit").
Qed.

(** [init] runs the status derivation over the page and nothing else on
    the host objects: every object of the page gets a job status, every
    other property of it stays as the API sent it (in particular [init]
    does not derive [inventory_name] and [inventory_id]; only the
    post-refresh handler does), and an object outside the page is not
    touched. *)
Theorem init_attaches_status_only
  (hosts_ : Page) (state_ : RouterState) (st : State) (l : loc) (h : Host.t) :
  heap st !! l = Some h ->
  exists h',
    heap (init hosts_ state_ st) !! l = Some h'
    /\ same_but_status h h'
    /\ (l ∈ results hosts_ -> is_Some (Host.job_status h'))
    /\ (l ∉ results hosts_ -> h' = h).
Proof.
  intros Hh. rewrite init_heap_unfold.
  set (sc := set_hosts _ _).
  destruct (forEach_alter_lookup (statusF sc) (results hosts_) (heap st) l)
    as (n & Hn & Hin & Hout).
  rewrite Hn, Hh. simpl. eexists. split; [done|]. split; [|split].
  - apply (iter_preserves same_but_status).
    + apply same_but_status_refl.
    + apply same_but_status_statusF.
  - intros Hl.
    apply (iter_establishes (fun x => is_Some (Host.job_status x)));
      [|by apply Hin].
    intros x. by eexists.
  - intros Hl. by rewrite (Hout Hl).
Qed.

(** In every state that a controller built on a page of existing objects
    reaches, a toggle of an Item of that page does not raise: it sends one
    request to the host service, for the negation of the flag the Item has
    at that moment. *)
Theorem toggle_of_snapshot_item_never_throws
  (hosts_ : Page) (state_ : RouterState) (σ : gmap loc Host.t)
  (es : list Event) (l : loc) :
  (forall x, x ∈ results hosts_ -> is_Some (σ !! x)) ->
  l ∈ results hosts_ ->
  let st := run es (controller hosts_ state_ σ) in
  l ∈ collection (hosts (scope st))
  /\ exists h,
       heap st !! l = Some h
       /\ dispatch (ToggleHostEnabled l) st
          = Normal (emit (SetHostStatus l (negb (Host.enabled h))) st).
Proof.
  intros Hobjects Hl st. subst st. split.
  - rewrite run_hosts. unfold controller. by rewrite init_hosts.
  - destruct (Hobjects l Hl) as [h0 Hh0].
    assert (is_Some (heap (controller hosts_ state_ σ) !! l)) as [h1 Hh1].
    { unfold controller. rewrite init_heap_unfold. simpl.
      match goal with
      | |- context [forEach_list (fun x => alter ?F x) ?ls ?m] =>
          destruct (forEach_alter_lookup F ls m l) as (n & -> & _)
      end.
      rewrite Hh0. by eexists. }
    pose proof (run_identity es (controller hosts_ state_ σ) l) as Hrel.
    rewrite Hh1 in Hrel.
    destruct (heap (run es (controller hosts_ state_ σ)) !! l)
      as [h|] eqn:Hh; [|by inversion Hrel].
    exists h. split; [done|].
    simpl. unfold toggleHostEnabled. by rewrite Hh.
Qed.

Lemma forEach_alter_NoDup (F : Host.t -> Host.t) (ls : list loc)
  (σ : gmap loc Host.t) (l : loc) :
  NoDup ls -> l ∈ ls ->
  forEach_list (fun x => alter F x) ls σ !! l = F <$> σ !! l.
Proof.
  intros Hnd. revert σ. induction Hnd as [|x xs Hx Hnd IH]; intros σ Hl.
  - by apply elem_of_nil in Hl.
  - simpl. apply elem_of_cons in Hl as [->|Hl].
    + destruct (forEach_alter_lookup F xs (alter F x σ) x)
        as (n & Hn & _ & Hout).
      rewrite Hn, (Hout Hx). simpl. rewrite lookup_alter_eq.
      by destruct (σ !! x).
    + rewrite IH by done. rewrite lookup_alter_ne; [done|].
      intros ->. by apply Hx.
Qed.

(** The post-refresh handler derives first and resolves second: when no
    reference occurs twice in the Snapshot, an Item ends as the status
    resolver's result on the Item with its inventory fields already
    derived, the resolver being handed the scope whose [hosts] is the new
    array. *)
Theorem postRefresh_resolves_status_on_derived
  (st : State) (l : loc) (h : Host.t) :
  NoDup (collection (hosts (scope st))) ->
  l ∈ collection (hosts (scope st)) ->
  heap st !! l = Some h ->
  heap (onPostRefresh st) !! l
  = Some (statusF (scope (onPostRefresh st)) (deriveF h)).
Proof.
  intros Hnd Hl Hh. rewrite onPostRefresh_unfold. simpl.
  rewrite !forEach_alter_NoDup by done. by rewrite Hh.
Qed.

(** On an absent or empty [$scope.hosts] the post-refresh handler installs
    an empty array and touches no object; after it, the success callback of
    any toggle raises the [TypeError], whatever the response. *)
Theorem postRefresh_empty_snapshot (st : State) :
  collection (hosts (scope st)) = [] ->
  hosts (scope (onPostRefresh st)) = Some []
  /\ heap (onPostRefresh st) = heap st
  /\ forall res,
       dispatch (SetHostStatusResolved res) (onPostRefresh st)
       = Throw TypeError (onPostRefresh st).
Proof.
  intros Hempty.
  assert (hosts (scope (onPostRefresh st)) = Some []) as Hhosts
    by (by rewrite onPostRefresh_hosts, Hempty).
  split; [done|]. split.
  - rewrite onPostRefresh_unfold. simpl. by rewrite Hempty.
  - intros res. simpl. unfold toggleHostEnabled_then, findIndex.
    by rewrite Hhosts.
Qed.

(** ** Responses that arrive in either order *)

Lemma findIndex_from_ext {A} (p q : A -> bool) (xs : list A) (i : Z) :
  (forall x, p x = q x) -> findIndex_from p xs i = findIndex_from q xs i.
Proof.
  intros Hpq. revert i. induction xs as [|x xs IH]; intros i; simpl; [done|].
  by rewrite Hpq, IH.
Qed.

(** The element that the success callback looks up, if there is one. *)
Lemma looked_up_matches (st : State) (res : Response) (o : loc) :
  hosts (scope st)
    ≫= (fun a => array_get a
                 (findIndex (hosts (scope st)) (id_matches (heap st) res)))
  = Some o ->
  id_matches (heap st) res o = true.
Proof.
  unfold findIndex. intros Hget.
  destruct (hosts (scope st)) as [ls|]; [|done]. simpl in Hget.
  destruct (match_or_none (id_matches (heap st) res) ls) as [Hnone|Hsome].
  - by rewrite (findIndex_from_none _ _ 0%Z Hnone) in Hget.
  - destruct (findIndex_from_found _ _ 0%Z Hsome) as (k & x & Hk & Hx & Hpx).
    rewrite Hk, array_get_of_nat, Hx in Hget. by injection Hget as <-.
Qed.

Lemma id_matches_alter_enabled (σ : gmap loc Host.t) (res : Response)
  (o : loc) (v : bool) (l : loc) :
  id_matches (alter (Host.set_enabled v) o σ) res l = id_matches σ res l.
Proof.
  unfold id_matches. destruct (decide (o = l)) as [->|Hne].
  - rewrite lookup_alter_eq. by destruct (σ !! l).
  - by rewrite lookup_alter_ne.
Qed.

(** A patch of some flag does not change what a later response finds. *)
Lemma toggle_then_after_patch (st : State) (res : Response) (o : loc)
  (v : bool) :
  toggleHostEnabled_then res (with_heap (alter (Host.set_enabled v) o) st)
  = match hosts (scope st)
          ≫= (fun a => array_get a
                 (findIndex (hosts (scope st)) (id_matches (heap st) res)))
    with
    | Some o' =>
        Normal
          (with_heap (alter (Host.set_enabled (data_enabled (data res))) o')
                     (with_heap (alter (Host.set_enabled v) o) st))
    | None => Throw TypeError (with_heap (alter (Host.set_enabled v) o) st)
    end.
Proof.
  unfold toggleHostEnabled_then, findIndex. simpl.
  by rewrite (findIndex_from_ext _ (id_matches (heap st) res) _ _
                (id_matches_alter_enabled (heap st) res o v)).
Qed.

(** Responses for different identifiers may arrive in either order: the
    controller ends in the same state.  Each one patches the Item it
    matches, or raises without an effect when it matches none. *)
Theorem toggle_responses_commute (st : State) (r1 r2 : Response) :
  data_id (data r1) <> data_id (data r2) ->
  run [SetHostStatusResolved r1; SetHostStatusResolved r2] st
  = run [SetHostStatusResolved r2; SetHostStatusResolved r1] st.
Proof.
  intros Hne.
  change (after (toggleHostEnabled_then r2
                   (after (toggleHostEnabled_then r1 st)))
          = after (toggleHostEnabled_then r1
                     (after (toggleHostEnabled_then r2 st)))).
  pose proof (looked_up_matches st r1) as H1.
  pose proof (looked_up_matches st r2) as H2.
  unfold toggleHostEnabled_then at 2 4. cbv zeta.
  destruct (hosts (scope st) ≫= _) as [o1|] eqn:Ho1 in H1 |- *;
    destruct (hosts (scope st) ≫= _) as [o2|] eqn:Ho2 in H2 |- *;
    cbn [after]; rewrite ?toggle_then_after_patch;
    unfold toggleHostEnabled_then; cbv zeta; rewrite ?Ho1, ?Ho2;
    cbn [after]; try reflexivity.
  assert (o1 <> o2) as Hdiff.
  { intros ->. specialize (H1 _ eq_refl). specialize (H2 _ eq_refl).
    unfold id_matches in H1, H2.
    destruct (heap st !! o2); [|done].
    apply Z.eqb_eq in H1, H2. congruence. }
  unfold with_heap. simpl. f_equal. apply map_eq. intros l.
  destruct (decide (o1 = l)) as [->|Hl1];
    destruct (decide (o2 = l)) as [->|Hl2]; try done;
    repeat (rewrite lookup_alter_eq || rewrite lookup_alter_ne by done);
    done.
Qed.

End Controller.

(** ** The properties on the example page *)

(** The controller constructed on the example page, outside the edit state. *)
Abbreviation loaded :=
  (controller basePath hostsList noJobs first_page at_dashboard two_hosts).

(** [web1] as [init] leaves it: with the job status attached. *)
Abbreviation web1_loaded :=
  (Host.set_job_status (Some (noJobs (scope loaded) web1)) web1).

Example loaded_snapshot :
  hosts (scope loaded) = Some [1%positive; 2%positive]
  /\ heap loaded !! 1%positive = Some web1_loaded
  /\ editTracking (scope loaded) = NoneEditing.
Proof. by vm_compute. Qed.

(** The scenario of the specification: the first host is toggled and the
    server answers with the flag cleared. *)
Example toggle_scenario :
  Host.enabled
  <$> heap (run noJobs
              [ToggleHostEnabled 1%positive;
               SetHostStatusResolved (mkResponse (mkHostData 1 false))]
              loaded) !! 1%positive
  = Some false.
Proof. by vm_compute. Qed.

(** The scenario of the specification: navigation into the edit state sets
    the marker, navigation to another state clears it. *)
Example navigation_scenario :
  editTracking
    (scope (run noJobs
              [StateChangeSuccess (mkToState "dashboardHosts.edit")
                                  (mkToParams 1)]
              loaded))
  = Editing "hosts" 1
  /\ editTracking
       (scope (run noJobs
                 [StateChangeSuccess (mkToState "dashboardHosts.edit")
                                     (mkToParams 1);
                  StateChangeSuccess (mkToState "dashboardHosts")
                                     (mkToParams 0)]
                 loaded))
     = NoneEditing.
Proof. by vm_compute. Qed.

Lemma loaded_ids_unique :
  ids_unique (heap loaded) [1%positive; 2%positive].
Proof.
  intros l1 l2 h1 h2 Hl1 Hl2 Hh1 Hh2 Hid.
  apply elem_of_cons in Hl1 as [->|Hl1];
    [|apply elem_of_cons in Hl1 as [->|Hl1]; [|by apply elem_of_nil in Hl1]];
    (apply elem_of_cons in Hl2 as [->|Hl2];
     [|apply elem_of_cons in Hl2 as [->|Hl2]; [|by apply elem_of_nil in Hl2]]);
    try reflexivity;
    vm_compute in Hh1, Hh2; injection Hh1 as <-; injection Hh2 as <-;
    discriminate Hid.
Defined.

Lemma loaded_id_3_absent :
  id_absent loaded (mkResponse (mkHostData 3 true)).
Proof.
  intros l h Hl Hh. change (l ∈ [1%positive; 2%positive]) in Hl.
  apply elem_of_cons in Hl as [->|Hl];
    [|apply elem_of_cons in Hl as [->|Hl]; [|by apply elem_of_nil in Hl]];
    vm_compute in Hh; injection Hh as <-; discriminate.
Defined.

(** The response for a host that is not on the displayed page: the lookup
    returns -1 and the callback raises a [TypeError]. *)
Lemma toggle_then_absent_id_throws_witness :
  id_absent loaded (mkResponse (mkHostData 3 true))
  /\ findIndex (hosts (scope loaded))
       (id_matches (heap loaded) (mkResponse (mkHostData 3 true)))
     = (-1)%Z
  /\ dispatch noJobs (SetHostStatusResolved (mkResponse (mkHostData 3 true)))
       loaded
     = Throw TypeError loaded.
Proof.
  split; [exact loaded_id_3_absent|].
  exact (toggle_then_absent_id_throws noJobs loaded
           (mkResponse (mkHostData 3 true)) loaded_id_3_absent).
Defined.



Lemma postRefresh_derives_inventory_witness :
  1%positive ∈ collection (hosts (scope loaded))
  /\ heap loaded !! 1%positive = Some web1_loaded
  /\ exists h1 h2,
       heap (after (dispatch noJobs PostRefresh loaded)) !! 1%positive
       = Some h1
       /\ heap (after (dispatch noJobs PostRefresh
                         (after (dispatch noJobs PostRefresh loaded))))
            !! 1%positive
          = Some h2
       /\ inventory_derived h1
       /\ Host.inventory_name h2 = Host.inventory_name h1
       /\ Host.inventory_id h2 = Host.inventory_id h1.
Proof.
  assert (1%positive ∈ collection (hosts (scope loaded))) as Hl by left.
  assert (heap loaded !! 1%positive = Some web1_loaded) as Hh
    by (vm_compute; reflexivity).
  split; [exact Hl|]. split; [exact Hh|].
  destruct (postRefresh_derives_inventory noJobs loaded 1%positive
              web1_loaded Hl Hh)
    as (_ & h1 & h2 & Hh1 & Hh2 & Hd1 & _ & Hname & Hid & _).
  exists h1, h2. split; [exact Hh1|]. split; [exact Hh2|].
  split; [exact Hd1|]. split; [exact Hname|exact Hid].
Defined.

(** After the post-refresh signal the first host of the example shows the
    inventory of its summary fields. *)
Example postRefresh_scenario :
  (fun h => (Host.inventory_name h, Host.inventory_id h))
  <$> heap (run noJobs [PostRefresh] loaded) !! 1%positive
  = Some (Some "Prod", Some 9%Z).
Proof. by vm_compute. Qed.

(** ** The add form of inventory scripts: properties *)

Section AddForm.

Import InventoryScriptsAdd.

Variable inj : Injected.

Lemma add_dispatch_calls (e : Event) (st : State) :
  exists chunk : list Call,
    calls (dispatch inj e st) = calls st ++ chunk
    /\ List.filter is_navigation chunk = option_list (navigation_of e)
    /\ length (List.filter (is_wait "start") chunk)
       = (if is_save e then 1 else 0)%nat
    /\ length (List.filter (is_wait "stop") chunk)
       = (if is_success e then 1 else 0)%nat.
Proof. destruct e; eexists; (split; [reflexivity|]); by repeat split. Qed.

Lemma add_run_cons (e : Event) (es : list Event) (st : State) :
  run inj (e :: es) st = run inj es (dispatch inj e st).
Proof. done. Qed.

Lemma add_dispatch_scope (e : Event) (st : State) :
  scope (dispatch inj e st) = scope st.
Proof. by destruct e. Qed.

Lemma add_run_scope (es : list Event) (st : State) :
  scope (run inj es st) = scope st.
Proof.
  revert st. induction es as [|e es IH]; intros st; [done|].
  by rewrite add_run_cons, IH, add_dispatch_scope.
Qed.

(** The controller itself starts the wait indicator once per [formSave]
    and stops it once per successful request, and at no other time: after
    a failed request it does not call [Wait('stop')]. *)
Theorem add_wait_started_per_save_stopped_per_success
  (es : list Event) (st : State) :
  length (List.filter (is_wait "start") (calls (run inj es st)))
  = (length (List.filter (is_wait "start") (calls st))
     + length (List.filter is_save es))%nat
  /\ length (List.filter (is_wait "stop") (calls (run inj es st)))
     = (length (List.filter (is_wait "stop") (calls st))
        + length (List.filter is_success es))%nat.
Proof.
  revert st. induction es as [|e es IH]; intros st.
  - simpl. split; lia.
  - rewrite add_run_cons.
    destruct (IH (dispatch inj e st)) as [-> ->].
    destruct (add_dispatch_calls e st) as (chunk & -> & _ & Hstart & Hstop).
    rewrite !List.filter_app, !length_app, Hstart, Hstop. simpl.
    destruct (is_save e), (is_success e); simpl; lia.
Qed.

(** The navigation requests of the log are, in order, those of the events:
    to the edit state of the created script, with a reload, for each
    successful request, and to the list for each [formCancel]; a save by
    itself and a failed request never navigate. *)
Theorem add_navigates_on_success_and_cancel (es : list Event) (st : State) :
  List.filter is_navigation (calls (run inj es st))
  = List.filter is_navigation (calls st) ++ omap navigation_of es.
Proof.
  revert st. induction es as [|e es IH]; intros st.
  - simpl. by rewrite app_nil_r.
  - rewrite add_run_cons, IH.
    destruct (add_dispatch_calls e st) as (chunk & -> & Hnav & _).
    rewrite List.filter_app, Hnav, <- app_assoc. f_equal.
    simpl. by destruct (navigation_of e).
Qed.

(** No function or callback of the controller writes the scope: through
    any sequence of saves, responses and cancels the form fields stay as
    they were handed over, and [canEdit] stays [true]; neither a success
    nor a failure resets the form. *)
Theorem add_never_writes_form_fields (sc : Scope) (es : list Event) :
  scope (run inj es (controller inj sc)) = set_canEdit (Some true) sc.
Proof. by rewrite add_run_scope. Qed.

Lemma posts_ok_app_no_post (u : string) (pl : Payload)
  (log chunk : list Call) :
  posts_ok u pl log ->
  Forall (fun c => forall p, c <> RestPost p) chunk ->
  posts_ok u pl (log ++ chunk).
Proof.
  intros Hok Hchunk i p Hi.
  destruct (decide (i < length log)%nat) as [Hlt|Hge].
  - rewrite lookup_app_l in Hi by done.
    destruct (Hok i p Hi) as (-> & j & -> & Hj).
    split; [done|]. exists j. split; [done|].
    by apply lookup_app_l_Some.
  - rewrite lookup_app_r in Hi by lia.
    apply list_elem_of_lookup_2 in Hi.
    rewrite Forall_forall in Hchunk. by destruct (Hchunk _ Hi p).
Qed.

Lemma posts_ok_app_save (u : string) (pl : Payload) (log : list Call) :
  posts_ok u pl log ->
  posts_ok u pl
    (log ++ [GeneratorClearApiErrors; Wait "start"; RestSetUrl u; RestPost pl]).
Proof.
  intros Hok i p Hi.
  destruct (decide (i < length log)%nat) as [Hlt|Hge].
  - rewrite lookup_app_l in Hi by done.
    destruct (Hok i p Hi) as (-> & j & -> & Hj).
    split; [done|]. exists j. split; [done|].
    by apply lookup_app_l_Some.
  - rewrite lookup_app_r in Hi by lia.
    destruct (i - length log)%nat as [|[|[|[|k]]]] eqn:Hk; simpl in Hi;
      try discriminate.
    injection Hi as <-. split; [done|].
    exists (length log + 2)%nat. split; [lia|].
    rewrite lookup_app_r by lia.
    by replace (length log + 2 - length log)%nat with 2%nat by lia.
Qed.

Lemma add_run_posts_ok (es : list Event) (st : State) :
  posts_ok (url inj) (form_payload (scope st)) (calls st) ->
  posts_ok (url inj) (form_payload (scope st)) (calls (run inj es st)).
Proof.
  revert st. induction es as [|e es IH]; intros st Hok; [done|].
  rewrite add_run_cons. rewrite <- (add_dispatch_scope e st). apply IH.
  rewrite add_dispatch_scope.
  destruct e; simpl;
    first [ by apply posts_ok_app_save
          | apply posts_ok_app_no_post; [done|];
            repeat constructor; intros p; discriminate ].
Qed.

(** Every request the controller posts goes to the [inventory_scripts]
    URL: in the log of any run from construction, a [Rest.post] comes
    right after [Rest.setUrl] with that URL, and it carries the four form
    fields of the scope. *)
Theorem add_posts_form_to_inventory_scripts
  (sc : Scope) (es : list Event) (i : nat) (p : Payload) :
  calls (run inj es (controller inj sc)) !! i = Some (RestPost p) ->
  p = mkPayload (name sc) (description sc) (organization sc) (script sc)
  /\ exists j : nat,
       i = S j
       /\ calls (run inj es (controller inj sc)) !! j
          = Some (RestSetUrl (GetBasePath inj "inventory_scripts")).
Proof.
  apply (add_run_posts_ok es (controller inj sc)).
  intros k q Hk. simpl in Hk.
  destruct k as [|[|[|k]]]; discriminate.
Qed.

End AddForm.

(** ** The further properties on the examples *)

(** [web2] as [init] leaves it. *)
Abbreviation web2_loaded :=
  (Host.set_job_status (Some (noJobs (scope loaded) web2)) web2).

(** The controller before [init] runs, on the two example hosts. *)
Abbreviation constructed :=
  (mkState (set_hostPageSize (Some 10%Z) empty_scope) two_hosts true []).

(** A controller whose page holds the same identifier twice. *)
Abbreviation loaded_twins :=
  (controller basePath hostsList noJobs first_page at_dashboard twins).

Lemma loaded_heap_closed : heap_closed loaded.
Proof.
  intros l Hl. change (l ∈ [1%positive; 2%positive]) in Hl.
  apply elem_of_cons in Hl as [->|Hl];
    [|apply elem_of_cons in Hl as [->|Hl]; [|by apply elem_of_nil in Hl]];
    vm_compute; by eexists.
Defined.

Lemma two_hosts_objects :
  forall x, x ∈ results first_page -> is_Some (two_hosts !! x).
Proof.
  intros l Hl. change (l ∈ [1%positive; 2%positive]) in Hl.
  apply elem_of_cons in Hl as [->|Hl];
    [|apply elem_of_cons in Hl as [->|Hl]; [|by apply elem_of_nil in Hl]];
    vm_compute; by eexists.
Defined.

(** Of two Items with the identifier 1, the response for 1 patches the
    first; the second keeps its flag. *)
Lemma toggle_then_patches_first_match_witness :
  hosts (scope loaded_twins) = Some ([] ++ 1%positive :: [2%positive])
  /\ Host.enabled <$> heap loaded_twins !! 2%positive = Some true
  /\ exists st',
       toggleHostEnabled_then (mkResponse (mkHostData 1 false)) loaded_twins
       = Normal st'
       /\ Host.enabled <$> heap st' !! 1%positive = Some false
       /\ Host.enabled <$> heap st' !! 2%positive = Some true.
Proof.
  assert (hosts (scope loaded_twins) = Some ([] ++ 1%positive :: [2%positive]))
    as Hls by reflexivity.
  assert (heap loaded_twins !! 1%positive
          = Some (Host.set_job_status
                    (Some (noJobs (scope loaded_twins) web1)) web1)) as Hh
    by (vm_compute; reflexivity).
  split; [exact Hls|]. split; [vm_compute; reflexivity|].
  destruct (toggle_then_patches_first_match loaded_twins [] [2%positive]
              1%positive _ (mkResponse (mkHostData 1 false))
              Hls (Forall_nil_2 _) Hh eq_refl)
    as (st' & Hthen & Hfirst & Hothers & _).
  exists st'. split; [exact Hthen|]. split; [by rewrite Hfirst|].
  rewrite (Hothers 2%positive) by discriminate. vm_compute; reflexivity.
Defined.

Lemma toggle_round_trip_witness :
  hosts (scope loaded) = Some [1%positive; 2%positive]
  /\ 1%positive ∈ [1%positive; 2%positive]
  /\ heap loaded !! 1%positive = Some web1_loaded
  /\ ids_unique (heap loaded) [1%positive; 2%positive]
  /\ heap (run noJobs
             [ToggleHostEnabled 1%positive;
              SetHostStatusResolved (mkResponse (mkHostData 1 false));
              ToggleHostEnabled 1%positive;
              SetHostStatusResolved (mkResponse (mkHostData 1 true))]
             loaded)
     = heap loaded.
Proof.
  assert (hosts (scope loaded) = Some [1%positive; 2%positive]) as Hls
    by reflexivity.
  assert (1%positive ∈ [1%positive; 2%positive]) as Hi by left.
  assert (heap loaded !! 1%positive = Some web1_loaded) as Hhi
    by (vm_compute; reflexivity).
  split; [exact Hls|]. split; [exact Hi|]. split; [exact Hhi|].
  split; [exact loaded_ids_unique|].
  exact (proj1 (toggle_round_trip noJobs loaded [1%positive; 2%positive]
                  1%positive web1_loaded Hls Hi Hhi loaded_ids_unique)).
Defined.

Lemma enabled_changes_only_on_response_witness :
  Forall (fun e => is_resolved e = false)
    [ToggleHostEnabled 1%positive; PostRefresh;
     SetHostStatusRejected "500"; Destroy]
  /\ Host.enabled
     <$> heap (run noJobs
                 [ToggleHostEnabled 1%positive; PostRefresh;
                  SetHostStatusRejected "500"; Destroy] loaded) !! 1%positive
     = Host.enabled <$> heap loaded !! 1%positive.
Proof.
  assert (Forall (fun e => is_resolved e = false)
            [ToggleHostEnabled 1%positive; PostRefresh;
             SetHostStatusRejected "500"; Destroy]) as Hall
    by (repeat constructor).
  split; [exact Hall|].
  exact (enabled_changes_only_on_response noJobs _ loaded 1%positive Hall).
Defined.

Lemma events_preserve_well_formedness_witness :
  heap_closed loaded
  /\ ids_unique (heap loaded) (collection (hosts (scope loaded)))
  /\ heap_closed
       (run noJobs
          [PostRefresh;
           SetHostStatusResolved (mkResponse (mkHostData 2 true))] loaded)
  /\ ids_unique
       (heap (run noJobs
                [PostRefresh;
                 SetHostStatusResolved (mkResponse (mkHostData 2 true))]
                loaded))
       (collection
          (hosts (scope (run noJobs
                           [PostRefresh;
                            SetHostStatusResolved
                              (mkResponse (mkHostData 2 true))]
                           loaded)))).
Proof.
  split; [exact loaded_heap_closed|]. split; [exact loaded_ids_unique|].
  exact (events_preserve_well_formedness noJobs
           [PostRefresh;
            SetHostStatusResolved (mkResponse (mkHostData 2 true))]
           loaded loaded_heap_closed loaded_ids_unique).
Defined.

Lemma toggle_of_snapshot_item_never_throws_witness :
  (forall x, x ∈ results first_page -> is_Some (two_hosts !! x))
  /\ 2%positive ∈ results first_page
  /\ exists h,
       dispatch noJobs (ToggleHostEnabled 2%positive)
         (run noJobs [PostRefresh; Destroy] loaded)
       = Normal (emit (SetHostStatus 2%positive (negb (Host.enabled h)))
                      (run noJobs [PostRefresh; Destroy] loaded)).
Proof.
  assert (2%positive ∈ results first_page) as Hl by (right; left).
  split; [exact two_hosts_objects|]. split; [exact Hl|].
  destruct (toggle_of_snapshot_item_never_throws basePath hostsList noJobs
              first_page at_dashboard two_hosts [PostRefresh; Destroy]
              2%positive two_hosts_objects Hl)
    as (_ & h & _ & Hcall).
  exists h. exact Hcall.
Defined.

Lemma init_attaches_status_only_witness :
  heap constructed !! 1%positive = Some web1
  /\ exists h',
       heap (init basePath hostsList noJobs first_page at_dashboard
               constructed) !! 1%positive
       = Some h'
       /\ same_but_status web1 h'.
Proof.
  assert (heap constructed !! 1%positive = Some web1) as Hh
    by (vm_compute; reflexivity).
  split; [exact Hh|].
  destruct (init_attaches_status_only basePath hostsList noJobs first_page
              at_dashboard constructed 1%positive web1 Hh)
    as (h' & Hh' & Hsame & _).
  exists h'. split; [exact Hh'|exact Hsame].
Defined.

Lemma postRefresh_resolves_status_on_derived_witness :
  NoDup (collection (hosts (scope loaded)))
  /\ 1%positive ∈ collection (hosts (scope loaded))
  /\ heap loaded !! 1%positive = Some web1_loaded
  /\ heap (onPostRefresh noJobs loaded) !! 1%positive
     = Some (statusF noJobs (scope (onPostRefresh noJobs loaded))
               (deriveF web1_loaded)).
Proof.
  assert (NoDup (collection (hosts (scope loaded)))) as Hnd.
  { change (NoDup [1%positive; 2%positive]).
    apply NoDup_cons. split.
    - intros H%list_elem_of_singleton. discriminate H.
    - apply NoDup_singleton. }
  assert (1%positive ∈ collection (hosts (scope loaded))) as Hl by left.
  assert (heap loaded !! 1%positive = Some web1_loaded) as Hh
    by (vm_compute; reflexivity).
  split; [exact Hnd|]. split; [exact Hl|]. split; [exact Hh|].
  exact (postRefresh_resolves_status_on_derived noJobs loaded 1%positive
           web1_loaded Hnd Hl Hh).
Defined.

Lemma postRefresh_empty_snapshot_witness :
  collection (hosts (scope constructed)) = []
  /\ hosts (scope (onPostRefresh noJobs constructed)) = Some []
  /\ heap (onPostRefresh noJobs constructed) = heap constructed.
Proof.
  assert (collection (hosts (scope constructed)) = []) as Hempty
    by reflexivity.
  split; [exact Hempty|].
  destruct (postRefresh_empty_snapshot noJobs constructed Hempty)
    as (Hhosts & Hheap & _).
  split; [exact Hhosts|exact Hheap].
Defined.

(** A failed save followed by a successful one: the second post is at
    index 11 of the log, right after its [Rest.setUrl]. *)
Lemma add_posts_form_to_inventory_scripts_witness :
  InventoryScriptsAdd.calls
    (InventoryScriptsAdd.run InventoryScriptsAdd.example_injected
       [InventoryScriptsAdd.FormSave;
        InventoryScriptsAdd.PostError "name: required" 400;
        InventoryScriptsAdd.FormSave;
        InventoryScriptsAdd.PostSuccess 7]
       (InventoryScriptsAdd.controller InventoryScriptsAdd.example_injected
          InventoryScriptsAdd.filled_form)) !! 11%nat
  = Some (InventoryScriptsAdd.RestPost
            (InventoryScriptsAdd.form_payload InventoryScriptsAdd.filled_form))
  /\ InventoryScriptsAdd.calls
       (InventoryScriptsAdd.run InventoryScriptsAdd.example_injected
          [InventoryScriptsAdd.FormSave;
           InventoryScriptsAdd.PostError "name: required" 400;
           InventoryScriptsAdd.FormSave;
           InventoryScriptsAdd.PostSuccess 7]
          (InventoryScriptsAdd.controller InventoryScriptsAdd.example_injected
             InventoryScriptsAdd.filled_form)) !! 10%nat
     = Some (InventoryScriptsAdd.RestSetUrl "/api/v1/inventory_scripts/").
Proof.
  assert (InventoryScriptsAdd.calls
            (InventoryScriptsAdd.run InventoryScriptsAdd.example_injected
               [InventoryScriptsAdd.FormSave;
                InventoryScriptsAdd.PostError "name: required" 400;
                InventoryScriptsAdd.FormSave;
                InventoryScriptsAdd.PostSuccess 7]
               (InventoryScriptsAdd.controller
                  InventoryScriptsAdd.example_injected
                  InventoryScriptsAdd.filled_form)) !! 11%nat
          = Some (InventoryScriptsAdd.RestPost
                    (InventoryScriptsAdd.form_payload
                       InventoryScriptsAdd.filled_form))) as Hpost
    by reflexivity.
  split; [exact Hpost|].
  destruct (add_posts_form_to_inventory_scripts
              InventoryScriptsAdd.example_injected
              InventoryScriptsAdd.filled_form _ _ _ Hpost)
    as (_ & j & Hj & Hurl).
  injection Hj as <-. exact Hurl.
Defined.

Lemma toggle_responses_commute_witness :
  data_id (data (mkResponse (mkHostData 1 false)))
  <> data_id (data (mkResponse (mkHostData 2 true)))
  /\ run noJobs
       [SetHostStatusResolved (mkResponse (mkHostData 1 false));
        SetHostStatusResolved (mkResponse (mkHostData 2 true))] loaded
     = run noJobs
         [SetHostStatusResolved (mkResponse (mkHostData 2 true));
          SetHostStatusResolved (mkResponse (mkHostData 1 false))] loaded.
Proof.
  assert (data_id (data (mkResponse (mkHostData 1 false)))
          <> data_id (data (mkResponse (mkHostData 2 true)))) as Hne
    by discriminate.
  split; [exact Hne|].
  exact (toggle_responses_commute noJobs loaded _ _ Hne).
Defined.
